(** * livestream: a seekable live-stream ring buffer fed by an HTTP transfer

    A shallow embedding of [src/livestream.cpp] and the properties of its
    ring buffer, position registers and control operations.

    Conventions of the embedding.
    - [size_t], [uint64_t] and [unsigned long long] are 64-bit unsigned
      integers (an LP64 target), held in [Z]; every operation that can leave
      the range has its wrap-around written out ([to_size_t], [to_uint64]).
    - The class instance is the record [livestream]; a member function is a
      function from the instance to an [outcome]: it returns, throws, or does
      not come back from a loop.
    - The transfer runs on a worker thread.  What that thread does while the
      calling thread is blocked (in a join, in a wait for [m_started], in the
      timed wait of [read]) is an argument of the blocking function: the
      callbacks libcurl invokes, in order, and the result of the transfer.
    - [WRITE_PADDING], declared in [livestream.h], is a variable of the
      development. *)

From Stdlib Require Import ZArith List String Ascii Bool Lia.
From Stdlib Require Import DecimalString DecimalN DecimalPos.
Import ListNotations.

Local Open Scope string_scope.
Local Open Scope list_scope.
Local Open Scope Z_scope.

(** ** Machine integers *)

Definition SIZE_MAX : Z := 2 ^ 64 - 1.
Definition UINT64_MAX : Z := 2 ^ 64 - 1.
Definition ULLONG_MAX : Z := 2 ^ 64 - 1.

(** Conversion of a mathematical result to [size_t] / [uint64_t]. *)
Definition to_size_t (z : Z) : Z := z mod 2 ^ 64.
Definition to_uint64 (z : Z) : Z := z mod 2 ^ 64.

Definition uint8_t : Type := Byte.byte.

(** ** Exceptions and outcomes *)

(** The exceptions the file throws.  [string_exception] is declared in
    [string_exception.h]; the arguments of its constructor, the pieces of the
    message, are kept as they are given. *)
Inductive exception : Type :=
| invalid_argument (what : string)
| out_of_range (what : string)
| bad_alloc
| string_exception (message : list string).

(** ** libcurl constants (curl.h) *)

Definition CURLcode : Type := Z.
Definition CURLE_OK : CURLcode := 0.
Definition CURLE_ABORTED_BY_CALLBACK : CURLcode := 42.
Definition CURLE_BAD_FUNCTION_ARGUMENT : CURLcode := 43.
Definition CURL_WRITEFUNC_PAUSE : Z := 268435457. (* 0x10000001 *)
Definition CURL_ERROR_SIZE : Z := 256.

(** The easy handle, as far as this class configures it: the URL, the
    [CURLOPT_RANGE] string, and whether reception is paused. *)
Record CURL : Type := {
  curl_url : string;
  curl_range : option string;
  curl_recv_paused : bool
}.

(** [std::thread m_worker]: no thread, a thread inside [transfer_func], or a
    thread whose procedure has returned and that has not been joined. *)
Inductive thread : Type := NotAThread | Running | Returned.

Definition joinable (t : thread) : bool :=
  match t with NotAThread => false | _ => true end.

(** ** The instance *)

Record livestream : Type := {
  m_buffersize : Z;
  m_buffer : list uint8_t;
  m_bufferhead : Z;
  m_buffertail : Z;
  m_startpos : Z;
  m_readpos : Z;
  m_writepos : Z;
  m_length : Z;
  m_started : bool;
  m_paused : bool;
  m_stop : bool;
  m_worker : thread;
  m_curl : option CURL;
  m_curlresult : CURLcode;
  m_curlerr : string
}.

Inductive outcome (A : Type) : Type :=
| Returns (a : A) (s : livestream)
| Throws (e : exception) (s : livestream)
| Diverges.

Arguments Returns {A} a s.
Arguments Throws {A} e s.
Arguments Diverges {A}.

(** Field updates, named after the member they assign. *)
Definition set_bufferhead (v : Z) (s : livestream) : livestream :=
  {| m_buffersize := m_buffersize s; m_buffer := m_buffer s;
     m_bufferhead := v; m_buffertail := m_buffertail s;
     m_startpos := m_startpos s; m_readpos := m_readpos s;
     m_writepos := m_writepos s; m_length := m_length s;
     m_started := m_started s; m_paused := m_paused s; m_stop := m_stop s;
     m_worker := m_worker s; m_curl := m_curl s;
     m_curlresult := m_curlresult s; m_curlerr := m_curlerr s |}.

Definition set_buffertail (v : Z) (s : livestream) : livestream :=
  {| m_buffersize := m_buffersize s; m_buffer := m_buffer s;
     m_bufferhead := m_bufferhead s; m_buffertail := v;
     m_startpos := m_startpos s; m_readpos := m_readpos s;
     m_writepos := m_writepos s; m_length := m_length s;
     m_started := m_started s; m_paused := m_paused s; m_stop := m_stop s;
     m_worker := m_worker s; m_curl := m_curl s;
     m_curlresult := m_curlresult s; m_curlerr := m_curlerr s |}.

Definition set_buffer (v : list uint8_t) (s : livestream) : livestream :=
  {| m_buffersize := m_buffersize s; m_buffer := v;
     m_bufferhead := m_bufferhead s; m_buffertail := m_buffertail s;
     m_startpos := m_startpos s; m_readpos := m_readpos s;
     m_writepos := m_writepos s; m_length := m_length s;
     m_started := m_started s; m_paused := m_paused s; m_stop := m_stop s;
     m_worker := m_worker s; m_curl := m_curl s;
     m_curlresult := m_curlresult s; m_curlerr := m_curlerr s |}.

Definition set_startpos (v : Z) (s : livestream) : livestream :=
  {| m_buffersize := m_buffersize s; m_buffer := m_buffer s;
     m_bufferhead := m_bufferhead s; m_buffertail := m_buffertail s;
     m_startpos := v; m_readpos := m_readpos s;
     m_writepos := m_writepos s; m_length := m_length s;
     m_started := m_started s; m_paused := m_paused s; m_stop := m_stop s;
     m_worker := m_worker s; m_curl := m_curl s;
     m_curlresult := m_curlresult s; m_curlerr := m_curlerr s |}.

Definition set_readpos (v : Z) (s : livestream) : livestream :=
  {| m_buffersize := m_buffersize s; m_buffer := m_buffer s;
     m_bufferhead := m_bufferhead s; m_buffertail := m_buffertail s;
     m_startpos := m_startpos s; m_readpos := v;
     m_writepos := m_writepos s; m_length := m_length s;
     m_started := m_started s; m_paused := m_paused s; m_stop := m_stop s;
     m_worker := m_worker s; m_curl := m_curl s;
     m_curlresult := m_curlresult s; m_curlerr := m_curlerr s |}.

Definition set_writepos (v : Z) (s : livestream) : livestream :=
  {| m_buffersize := m_buffersize s; m_buffer := m_buffer s;
     m_bufferhead := m_bufferhead s; m_buffertail := m_buffertail s;
     m_startpos := m_startpos s; m_readpos := m_readpos s;
     m_writepos := v; m_length := m_length s;
     m_started := m_started s; m_paused := m_paused s; m_stop := m_stop s;
     m_worker := m_worker s; m_curl := m_curl s;
     m_curlresult := m_curlresult s; m_curlerr := m_curlerr s |}.

Definition set_length (v : Z) (s : livestream) : livestream :=
  {| m_buffersize := m_buffersize s; m_buffer := m_buffer s;
     m_bufferhead := m_bufferhead s; m_buffertail := m_buffertail s;
     m_startpos := m_startpos s; m_readpos := m_readpos s;
     m_writepos := m_writepos s; m_length := v;
     m_started := m_started s; m_paused := m_paused s; m_stop := m_stop s;
     m_worker := m_worker s; m_curl := m_curl s;
     m_curlresult := m_curlresult s; m_curlerr := m_curlerr s |}.

Definition set_started (v : bool) (s : livestream) : livestream :=
  {| m_buffersize := m_buffersize s; m_buffer := m_buffer s;
     m_bufferhead := m_bufferhead s; m_buffertail := m_buffertail s;
     m_startpos := m_startpos s; m_readpos := m_readpos s;
     m_writepos := m_writepos s; m_length := m_length s;
     m_started := v; m_paused := m_paused s; m_stop := m_stop s;
     m_worker := m_worker s; m_curl := m_curl s;
     m_curlresult := m_curlresult s; m_curlerr := m_curlerr s |}.

Definition set_paused (v : bool) (s : livestream) : livestream :=
  {| m_buffersize := m_buffersize s; m_buffer := m_buffer s;
     m_bufferhead := m_bufferhead s; m_buffertail := m_buffertail s;
     m_startpos := m_startpos s; m_readpos := m_readpos s;
     m_writepos := m_writepos s; m_length := m_length s;
     m_started := m_started s; m_paused := v; m_stop := m_stop s;
     m_worker := m_worker s; m_curl := m_curl s;
     m_curlresult := m_curlresult s; m_curlerr := m_curlerr s |}.

Definition set_stop (v : bool) (s : livestream) : livestream :=
  {| m_buffersize := m_buffersize s; m_buffer := m_buffer s;
     m_bufferhead := m_bufferhead s; m_buffertail := m_buffertail s;
     m_startpos := m_startpos s; m_readpos := m_readpos s;
     m_writepos := m_writepos s; m_length := m_length s;
     m_started := m_started s; m_paused := m_paused s; m_stop := v;
     m_worker := m_worker s; m_curl := m_curl s;
     m_curlresult := m_curlresult s; m_curlerr := m_curlerr s |}.

Definition set_worker (v : thread) (s : livestream) : livestream :=
  {| m_buffersize := m_buffersize s; m_buffer := m_buffer s;
     m_bufferhead := m_bufferhead s; m_buffertail := m_buffertail s;
     m_startpos := m_startpos s; m_readpos := m_readpos s;
     m_writepos := m_writepos s; m_length := m_length s;
     m_started := m_started s; m_paused := m_paused s; m_stop := m_stop s;
     m_worker := v; m_curl := m_curl s;
     m_curlresult := m_curlresult s; m_curlerr := m_curlerr s |}.

Definition set_curl (v : option CURL) (s : livestream) : livestream :=
  {| m_buffersize := m_buffersize s; m_buffer := m_buffer s;
     m_bufferhead := m_bufferhead s; m_buffertail := m_buffertail s;
     m_startpos := m_startpos s; m_readpos := m_readpos s;
     m_writepos := m_writepos s; m_length := m_length s;
     m_started := m_started s; m_paused := m_paused s; m_stop := m_stop s;
     m_worker := m_worker s; m_curl := v;
     m_curlresult := m_curlresult s; m_curlerr := m_curlerr s |}.

Definition set_curlresult (v : CURLcode) (s : livestream) : livestream :=
  {| m_buffersize := m_buffersize s; m_buffer := m_buffer s;
     m_bufferhead := m_bufferhead s; m_buffertail := m_buffertail s;
     m_startpos := m_startpos s; m_readpos := m_readpos s;
     m_writepos := m_writepos s; m_length := m_length s;
     m_started := m_started s; m_paused := m_paused s; m_stop := m_stop s;
     m_worker := m_worker s; m_curl := m_curl s;
     m_curlresult := v; m_curlerr := m_curlerr s |}.

Definition set_curlerr (v : string) (s : livestream) : livestream :=
  {| m_buffersize := m_buffersize s; m_buffer := m_buffer s;
     m_bufferhead := m_bufferhead s; m_buffertail := m_buffertail s;
     m_startpos := m_startpos s; m_readpos := m_readpos s;
     m_writepos := m_writepos s; m_length := m_length s;
     m_started := m_started s; m_paused := m_paused s; m_stop := m_stop s;
     m_worker := m_worker s; m_curl := m_curl s;
     m_curlresult := m_curlresult s; m_curlerr := v |}.

(** ** align_up (lines 39-43) *)

Definition align_up (value alignment : Z) : exception + Z :=
  if alignment <? 1 then inl (out_of_range "alignment")
  else inr (if value =? 0 then 0
            else to_size_t (value + (alignment - value mod alignment) mod alignment)).

(** ** C strings, [strncmp] and the [sscanf] of the header adapter

    Text handed over by libcurl is a [string]; a C function reads it up to
    the first NUL. *)

Definition NUL : ascii := Ascii.zero.

Fixpoint c_str (s : string) : string :=
  match s with
  | EmptyString => EmptyString
  | String c rest => if Ascii.eqb c NUL then EmptyString else String c (c_str rest)
  end.

Definition str_head (s : string) : ascii :=
  match s with EmptyString => NUL | String c _ => c end.

Definition str_tail (s : string) : string :=
  match s with EmptyString => EmptyString | String _ rest => rest end.

(** [strncmp]: 0 when the first [n] characters agree (or both strings end
    before), the sign of the first difference otherwise. *)
Fixpoint strncmp (s1 s2 : string) (n : nat) : Z :=
  match n with
  | O => 0
  | S n' =>
      let c1 := str_head s1 in
      let c2 := str_head s2 in
      if Ascii.eqb c1 c2
      then (if Ascii.eqb c1 NUL then 0 else strncmp (str_tail s1) (str_tail s2) n')
      else (if (nat_of_ascii c1 <? nat_of_ascii c2)%nat then -1 else 1)
  end.

Definition isspace (c : ascii) : bool :=
  let n := nat_of_ascii c in ((n =? 32) || ((9 <=? n) && (n <=? 13)))%nat.

Definition isdigit (c : ascii) : bool :=
  let n := nat_of_ascii c in ((48 <=? n) && (n <=? 57))%nat.

Definition digit_value (c : ascii) : Z := Z.of_nat (nat_of_ascii c) - 48.

Arguments isspace : simpl never.
Arguments isdigit : simpl never.
Arguments digit_value : simpl never.

(** The directives of a format string: an ordinary character, white space,
    or the conversion [%llu]. *)
Inductive directive : Type :=
| Ordinary (c : ascii)
| WhiteSpace
| Conversion_llu.

Fixpoint parse_format (fmt : string) : list directive :=
  match fmt with
  | EmptyString => []
  | String c rest =>
      match c, rest with
      | "%"%char, String "l" (String "l" (String "u" rest')) =>
          Conversion_llu :: parse_format rest'
      | _, _ => (if isspace c then WhiteSpace else Ordinary c) :: parse_format rest
      end
  end.

Fixpoint skip_space (s : string) : string :=
  match s with
  | String c rest => if isspace c then skip_space rest else s
  | EmptyString => s
  end.

(** The decimal digits at the front of [s], accumulated into [acc]. *)
Fixpoint scan_digits (s : string) (acc : Z) : Z * string :=
  match s with
  | String c rest => if isdigit c then scan_digits rest (10 * acc + digit_value c) else (acc, s)
  | EmptyString => (acc, s)
  end.

(** The value [strtoull] yields for a sign and a digit value: out of range
    it is [ULLONG_MAX], and a minus sign negates in the unsigned type. *)
Definition strtoull_value (negative : bool) (v : Z) : Z :=
  if v >? ULLONG_MAX then ULLONG_MAX
  else if negative then to_uint64 (- v) else v.

(** The subject of [%llu] once white space is skipped: an optional sign and
    at least one digit. *)
Definition scan_llu (s : string) : option (Z * string) :=
  let c := str_head s in
  let negative := Ascii.eqb c "-" in
  let s1 := if negative || Ascii.eqb c "+" then str_tail s else s in
  if isdigit (str_head s1)
  then let '(v, rest) := scan_digits s1 0 in Some (strtoull_value negative v, rest)
  else None.

Definition EOF : Z := -1.

(** What [sscanf] returns when it stops with [assigned] conversions stored. *)
Definition scan_stopped (input : string) (assigned : list Z) : Z * list Z :=
  match input, assigned with
  | EmptyString, [] => (EOF, assigned)
  | _, _ => (Z.of_nat (List.length assigned), assigned)
  end.

Fixpoint scan (ds : list directive) (input : string) (assigned : list Z) : Z * list Z :=
  match ds with
  | [] => (Z.of_nat (List.length assigned), assigned)
  | WhiteSpace :: ds' => scan ds' (skip_space input) assigned
  | Ordinary c :: ds' =>
      match input with
      | String c' rest =>
          if Ascii.eqb c c' then scan ds' rest assigned
          else (Z.of_nat (List.length assigned), assigned)
      | EmptyString => scan_stopped input assigned
      end
  | Conversion_llu :: ds' =>
      let input' := skip_space input in
      match scan_llu input' with
      | Some (v, rest) => scan ds' rest (assigned ++ [v])
      | None => scan_stopped input' assigned
      end
  end.

Definition sscanf (data fmt : string) : Z * list Z :=
  scan (parse_format fmt) (c_str data) [].

(** ** curl_responseheaders (lines 83-115)

    [data] is the text the header pointer designates.  The function copies
    the [cb] bytes of the line into a terminated local buffer and then scans
    [data] itself (line 107); the properties below are about a line that ends
    where its [cb] bytes end, for which both readings agree. *)

Definition CONTENT_RANGE_HEADER : string := "Content-Range:".
Definition CONTENT_RANGE_HEADER_LEN : Z :=
  Z.of_nat (String.length CONTENT_RANGE_HEADER).

Definition curl_responseheaders (data : string) (size count : Z)
    (instance : livestream) : Z * livestream :=
  let cb := to_size_t (size * count) in
  if cb =? 0 then (0, instance)
  else if (cb >=? CONTENT_RANGE_HEADER_LEN)
          && (strncmp CONTENT_RANGE_HEADER data (Z.to_nat CONTENT_RANGE_HEADER_LEN) =? 0)
  then
    match sscanf data "Content-Range: bytes %llu-" with
    | (1, [rangestart]) =>
        (cb, set_startpos rangestart (set_readpos rangestart (set_writepos rangestart instance)))
    | _ => (cb, instance)
    end
  else (cb, instance).

(** ** curl_transfercontrol (lines 130-142) *)

Definition curl_easy_pause_cont (h : option CURL) : option CURL :=
  match h with
  | Some c => Some {| curl_url := curl_url c; curl_range := curl_range c;
                      curl_recv_paused := false |}
  | None => None
  end.

Definition curl_transfercontrol (instance : livestream) : Z * livestream :=
  if m_stop instance then (-1, set_stop false instance)
  else if m_paused instance
  then (0, set_curl (curl_easy_pause_cont (m_curl instance)) (set_paused false instance))
  else (0, instance).

(** ** memcpy between byte arrays

    [memcpy dst d src s n] is [dst] after [memcpy(&dst[d], &src[s], n)]. *)
Definition memcpy (dst : list uint8_t) (d : Z) (src : list uint8_t) (s n : Z)
    : list uint8_t :=
  firstn (Z.to_nat d) dst
  ++ firstn (Z.to_nat n) (skipn (Z.to_nat s) src)
  ++ skipn (Z.to_nat (d + n)) dst.

(** ** The worker's side, as the calling thread meets it

    A callback libcurl invokes on the worker thread, and a transfer: the
    callbacks [curl_easy_perform] invokes, in order, then its result code and
    the text it leaves in the error buffer.  A progress callback that returns
    non-zero ends the transfer at once with [CURLE_ABORTED_BY_CALLBACK]. *)

Inductive callback : Type :=
| on_header (data : string) (size count : Z)
| on_write (data : option (list uint8_t)) (size count : Z)
| on_progress.

Record transfer : Type := {
  callbacks : list callback;
  result : CURLcode;
  errortext : string
}.

(** What [start] needs of libcurl before the transfer: whether
    [curl_easy_init] yields a handle, and the result of the chain of
    [curl_easy_setopt] calls. *)
Record setup : Type := {
  easy_init_ok : bool;
  setopt_result : CURLcode
}.

(** What an out-of-buffer [seek] needs: the rest of the running transfer (the
    join waits for it), the result of setting [CURLOPT_RANGE], the transfer of
    the new worker, and how many steps that worker takes between the moment
    [m_started] becomes true and the moment the caller resumes. *)
Record restart : Type := {
  joined : transfer;
  range_result : CURLcode;
  restarted : transfer;
  resumed_late : nat
}.

Section Livestream.

(** [livestream::WRITE_PADDING] (livestream.h). *)
Variable WRITE_PADDING : Z.

(** ** Constructor (lines 52-61) *)

(** Modelled from the spec: the initial values of the members, which
    [livestream.h], not among the sources, gives them.  Section 4.5 has an
    instance start in state IDLE: no worker and no session, the positions,
    the length and both indices at zero and the flags cleared, as [stop]
    leaves them. *)
Definition initial_members (size : Z) (block : list uint8_t) : livestream :=
  {| m_buffersize := size; m_buffer := block;
     m_bufferhead := 0; m_buffertail := 0;
     m_startpos := 0; m_readpos := 0; m_writepos := 0;
     m_length := 0;
     m_started := false; m_paused := false; m_stop := false;
     m_worker := NotAThread; m_curl := None;
     m_curlresult := CURLE_OK; m_curlerr := "" |}.

(** [operator_new n] is the block [new uint8_t[n]] yields, or nothing when
    the allocation fails ([std::bad_alloc]). *)
Definition livestream_ctor (operator_new : Z -> option (list uint8_t))
    (buffersize : Z) : exception + livestream :=
  match align_up (to_size_t (buffersize + WRITE_PADDING)) 65536 with
  | inl e => inl e
  | inr size =>
      match operator_new size with
      | None => inl bad_alloc
      | Some block =>
          match operator_new CURL_ERROR_SIZE with
          | None => inl bad_alloc
          | Some _ => inr (initial_members size block)
          end
      end
  end.

(** ** curl_write (lines 156-214)

    [context] is the instance itself ([CURLOPT_WRITEDATA] is [this]); a null
    [data] is [None].  The loop of lines 181-194 runs on fuel: a chunk of
    length zero is followed by a chunk that is not, so [2 * cb + 1] rounds
    cover every run that ends.  The assertion of line 202 cannot fail: the
    loop ends with nothing left to write ([write_loop_writes_all]). *)

Fixpoint write_loop (fuel : nat) (buffersize tail : Z) (data : list uint8_t)
    (buffer : list uint8_t) (head byteswritten cb : Z)
    : option (list uint8_t * Z * Z) :=
  if cb =? 0 then Some (buffer, head, byteswritten)
  else
    match fuel with
    | O => None
    | S fuel' =>
        let chunk := if head <? tail then Z.min cb (tail - head)
                     else Z.min cb (to_size_t (buffersize - head)) in
        let buffer := memcpy buffer head data byteswritten chunk in
        let head := to_size_t (head + chunk) in
        let byteswritten := byteswritten + chunk in
        let cb := cb - chunk in
        let head := if head >=? buffersize then 0 else head in
        write_loop fuel' buffersize tail data buffer head byteswritten cb
    end.

Definition curl_write (data : option (list uint8_t)) (size count : Z)
    (instance : livestream) : outcome Z :=
  let cb := to_size_t (size * count) in
  match data with
  | None => Returns 0 instance
  | Some bytes =>
      if cb =? 0 then Returns 0 instance
      else
        let head := m_bufferhead instance in
        let tail := m_buffertail instance in
        let available :=
          if head <? tail then tail - head
          else to_size_t (to_size_t (m_buffersize instance - head) + tail) in
        if available <? to_size_t (cb + WRITE_PADDING)
        then Returns CURL_WRITEFUNC_PAUSE (set_paused true instance)
        else
          match write_loop (S (2 * Z.to_nat cb)) (m_buffersize instance) tail bytes
                           (m_buffer instance) head 0 cb with
          | None => Diverges
          | Some (buffer, head', byteswritten) =>
              let s := set_bufferhead head' (set_buffer buffer instance) in
              let s := set_writepos (to_uint64 (m_writepos s + byteswritten)) s in
              let s := if m_writepos s >? m_length s
                       then set_length (m_writepos s) s else s in
              Returns byteswritten (set_started true s)
          end
  end.

(** ** length and position (lines 225-243) *)

Definition length (s : livestream) : outcome Z := Returns (m_length s) s.

Definition position (s : livestream) : outcome Z := Returns (m_readpos s) s.

(** ** transfer_func (lines 515-525) and the worker thread *)

Definition transfer_func_enter (s : livestream) : livestream :=
  set_curlerr "" (set_curlresult CURLE_OK s).

Definition transfer_func_leave (code : CURLcode) (text : string)
    (s : livestream) : livestream :=
  set_worker Returned
    (set_started true (set_curlresult code (set_curlerr text s))).

(** [m_worker = std::thread(&livestream::transfer_func, this)]: the new
    thread runs lines 518-519 before the caller, which waits for
    [m_started], looks at the instance again. *)
Definition spawn (s : livestream) : livestream :=
  transfer_func_enter (set_worker Running s).

Definition mark_recv_paused (h : option CURL) : option CURL :=
  match h with
  | Some c => Some {| curl_url := curl_url c; curl_range := curl_range c;
                      curl_recv_paused := true |}
  | None => None
  end.

(** One callback on the worker thread: the instance after it and whether
    libcurl must abort; nothing when the callback does not return. *)
Definition invoke (cb : callback) (s : livestream) : option (bool * livestream) :=
  match cb with
  | on_header data size count =>
      Some (false, snd (curl_responseheaders data size count s))
  | on_write data size count =>
      match curl_write data size count s with
      | Returns n s' =>
          Some (false, if n =? CURL_WRITEFUNC_PAUSE
                       then set_curl (mark_recv_paused (m_curl s')) s' else s')
      | _ => None
      end
  | on_progress =>
      let '(r, s') := curl_transfercontrol s in Some (negb (r =? 0), s')
  end.

Definition aborted_text : string := "Callback aborted".

(** At most [n] steps of a running worker: a step is a callback or the
    return of [curl_easy_perform] followed by line 524. *)
Fixpoint perform_steps (n : nat) (cbs : list callback) (code : CURLcode)
    (text : string) (s : livestream) : option livestream :=
  match n with
  | O => Some s
  | S n' =>
      match m_worker s with
      | Running =>
          match cbs with
          | [] => Some (transfer_func_leave code text s)
          | cb :: rest =>
              match invoke cb s with
              | None => None
              | Some (true, s') =>
                  Some (transfer_func_leave CURLE_ABORTED_BY_CALLBACK aborted_text s')
              | Some (false, s') => perform_steps n' rest code text s'
              end
          end
      | _ => Some s
      end
  end.

(** The whole procedure on a thread that nothing interrupts: lines 518-519,
    the transfer, line 524. *)
Definition transfer_func (t : transfer) (s : livestream) : option livestream :=
  perform_steps (S (List.length (callbacks t)))
                (callbacks t) (result t) (errortext t) (transfer_func_enter s).

(** The worker runs until [m_started] is true; the callbacks it has not
    reached are handed back. *)
Fixpoint until_started (cbs : list callback) (code : CURLcode) (text : string)
    (s : livestream) : option (list callback * livestream) :=
  if m_started s then Some (cbs, s)
  else
    match cbs with
    | [] => Some ([], transfer_func_leave code text s)
    | cb :: rest =>
        match invoke cb s with
        | None => None
        | Some (true, s') =>
            Some ([], transfer_func_leave CURLE_ABORTED_BY_CALLBACK aborted_text s')
        | Some (false, s') => until_started rest code text s'
        end
    end.

(** [m_started.wait_until_equals(true)]: the caller resumes [late] worker
    steps after the flag has become true. *)
Definition wait_until_started (t : transfer) (late : nat) (s : livestream)
    : option livestream :=
  match until_started (callbacks t) (result t) (errortext t) s with
  | None => None
  | Some (rest, s') => perform_steps late rest (result t) (errortext t) s'
  end.

(** [m_worker.join()]: the rest of the transfer runs to its end. *)
Definition join (t : transfer) (s : livestream) : option livestream :=
  match perform_steps (S (List.length (callbacks t)))
                      (callbacks t) (result t) (errortext t) s with
  | None => None
  | Some s' => Some (set_worker NotAThread s')
  end.

(** ** read (lines 256-305)

    [buffer] is the destination ([None] for a null pointer), [count] its
    size.  While the reader waits (lines 269-278) the worker takes [arrivals]
    steps of transfer [t]: what it does before the predicate is evaluated for
    the last time, by a wake-up or at the deadline.  The result is the number
    of bytes read together with the destination. *)

Fixpoint read_loop (fuel : nat) (buffersize head : Z) (ring : list uint8_t)
    (buffer : list uint8_t) (tail bytesread count : Z)
    : option (list uint8_t * Z * Z) :=
  if count =? 0 then Some (buffer, tail, bytesread)
  else
    match fuel with
    | O => None
    | S fuel' =>
        let chunk := if tail <? head then Z.min count (head - tail)
                     else Z.min count (to_size_t (buffersize - tail)) in
        let buffer := memcpy buffer bytesread ring tail chunk in
        let tail := to_size_t (tail + chunk) in
        let bytesread := bytesread + chunk in
        let count := count - chunk in
        let tail := if tail >=? buffersize then 0 else tail in
        if tail =? head then Some (buffer, tail, bytesread)
        else read_loop fuel' buffersize head ring buffer tail bytesread count
    end.

(** [m_bufferhasdata.wait_until]: no wait when the ring holds data; else the
    worker takes its steps and the predicate is looked at again. *)
Definition wait_for_data (t : transfer) (arrivals : nat) (s : livestream)
    : option livestream :=
  if negb (m_bufferhead s =? m_buffertail s) then Some s
  else perform_steps arrivals (callbacks t) (result t) (errortext t) s.

Definition read (buffer : option (list uint8_t)) (count : Z)
    (t : transfer) (arrivals : nat) (s : livestream)
    : outcome (Z * list uint8_t) :=
  match buffer with
  | None => Throws (invalid_argument "buffer") s
  | Some dest =>
      if count >? m_buffersize s then Throws (invalid_argument "count") s
      else if count =? 0 then Returns (0, dest) s
      else
        match wait_for_data t arrivals s with
        | None => Diverges
        | Some s =>
            let head := m_bufferhead s in
            let tail := m_buffertail s in
            if head =? tail then Returns (0, dest) s
            else
              match read_loop (S (2 * Z.to_nat count)) (m_buffersize s) head
                              (m_buffer s) dest tail 0 count with
              | None => Diverges
              | Some (dest', tail', bytesread) =>
                  let s := set_buffertail tail' s in
                  let s := set_readpos (to_uint64 (m_readpos s + bytesread)) s in
                  Returns (bytesread, dest') s
              end
        end
  end.

(** ** reset_stream_state (lines 316-336) *)

Definition reset_stream_state (owns_lock : bool) (s : livestream) : outcome unit :=
  if negb owns_lock
  then Throws (string_exception
                 ["reset_stream_state"; ": caller does not own the unique_lock<>"]) s
  else if joinable (m_worker s)
  then Throws (string_exception
                 ["reset_stream_state"; ": cannot reset an active data transfer"]) s
  else
    let s := set_started false s in
    let s := set_paused false s in
    let s := set_stop false s in
    let s := set_startpos 0 (set_readpos 0 (set_writepos 0 s)) in
    let s := set_bufferhead 0 s in
    let s := set_buffertail 0 s in
    Returns tt s.

(** ** seek (lines 347-415) *)

(** [%llu] of [snprintf]. *)
Definition decimal (z : Z) : string := NilZero.string_of_uint (N.to_uint (Z.to_N z)).

(** [curl_easy_setopt(m_curl, CURLOPT_RANGE, byterange)]: refused for a null
    handle, and otherwise answered by libcurl with [answer]. *)
Definition curl_easy_setopt_range (h : option CURL) (byterange : string)
    (answer : CURLcode) : CURLcode * option CURL :=
  match h with
  | None => (CURLE_BAD_FUNCTION_ARGUMENT, None)
  | Some c =>
      if answer =? CURLE_OK
      then (CURLE_OK, Some {| curl_url := curl_url c; curl_range := Some byterange;
                              curl_recv_paused := curl_recv_paused c |})
      else (answer, h)
  end.

Definition seek (position : Z) (env : restart) (s : livestream) : outcome Z :=
  if position =? m_readpos s then Returns position s
  else if negb (joinable (m_worker s))
  then Throws (string_exception ["seek"; ": cannot seek an inactive data transfer"]) s
  else
    let minpos :=
      if to_uint64 (m_writepos s - m_startpos s) >? m_buffersize s
      then to_uint64 (m_writepos s - m_buffersize s) else m_startpos s in
    if (position >=? minpos) && (position <=? m_writepos s)
    then
      let s :=
        if minpos =? m_startpos s
        then set_buffertail (to_size_t (to_uint64 (position - m_startpos s))) s
        else
          let tail := m_bufferhead s in
          let delta := to_uint64 (position - minpos) in
          set_buffertail
            (to_size_t (if delta >=? to_size_t (m_buffersize s - tail)
                        then to_uint64 (delta - to_size_t (m_buffersize s - tail))
                        else to_uint64 (tail + delta))) s in
      Returns position (set_readpos position s)
    else
      let s := set_stop true s in
      match join (joined env) s with
      | None => Diverges
      | Some s =>
          match reset_stream_state true s with
          | Throws e s => Throws e s
          | Diverges => Diverges
          | Returns _ s =>
              let byterange := (decimal position ++ "-")%string in
              let '(rc, h) :=
                curl_easy_setopt_range (m_curl s) byterange (range_result env) in
              if negb (rc =? CURLE_OK)
              then Throws (string_exception
                             ["seek"; ": curl_easy_setopt() failed; transfer stopped"])
                          (set_curl None s)
              else
                let s := set_curl h s in
                let s := spawn s in
                match wait_until_started (restarted env) (resumed_late env) s with
                | None => Diverges
                | Some s =>
                    if negb (m_curlresult s =? CURLE_OK)
                    then Throws (string_exception
                                   ["seek"; ": failed to restart transfer at position ";
                                    decimal position; ": "; m_curlerr s]) s
                    else Returns (m_readpos s) s
                end
          end
      end.

(** ** start (lines 424-466) *)

Definition start (url : option string) (env : setup) (t : transfer) (late : nat)
    (s : livestream) : outcome Z :=
  match url with
  | None => Throws (invalid_argument "url") s
  | Some u =>
      if joinable (m_worker s)
      then Throws (string_exception ["start"; ": data transfer is already active"]) s
      else if negb (easy_init_ok env)
      then Throws (string_exception ["start"; ": curl_easy_init() failed"])
                  (set_curl None s)
      else
        let s := set_curl (Some {| curl_url := u; curl_range := None;
                                   curl_recv_paused := false |}) s in
        if negb (setopt_result env =? CURLE_OK)
        then Throws (string_exception ["start"; ": curl_easy_setopt() failed"])
                    (set_curl None s)
        else
          let s := spawn s in
          match wait_until_started t late s with
          | None => Diverges
          | Some s =>
              if negb (m_curlresult s =? CURLE_OK)
              then Throws (string_exception
                             ["start"; ": failed to start transfer for url "; u;
                              ": "; m_curlerr s])
                          (set_curl None s)
              else Returns (m_readpos s) s
          end
  end.

(** ** stop (lines 477-504)

    [t] is what is left of the running transfer when the stop is signalled. *)

Definition stop (t : transfer) (s : livestream) : outcome Z :=
  if negb (joinable (m_worker s)) then Returns 0 s
  else
    let s := set_stop true s in
    match join t s with
    | None => Diverges
    | Some s =>
        let position := m_readpos s in
        match reset_stream_state true s with
        | Throws e s => Throws e s
        | Diverges => Diverges
        | Returns _ s =>
            let s := set_length 0 s in
            let s := set_curl None s in
            Returns position s
        end
    end.

(** ** The life of an instance

    What can happen to an instance after its construction: a call of the
    control API, or steps of the running worker between two calls. *)

Inductive call : Type :=
| call_start (url : option string) (env : setup) (t : transfer) (late : nat)
| call_stop (t : transfer)
| call_seek (position : Z) (env : restart)
| call_read (buffer : option (list uint8_t)) (count : Z) (t : transfer) (arrivals : nat)
| call_position
| call_length
| worker_runs (t : transfer) (steps : nat).

Definition instance_after {A : Type} (o : outcome A) : option livestream :=
  match o with
  | Returns _ s => Some s
  | Throws _ s => Some s
  | Diverges => None
  end.

Definition exec (c : call) (s : livestream) : option livestream :=
  match c with
  | call_start url env t late => instance_after (start url env t late s)
  | call_stop t => instance_after (stop t s)
  | call_seek p env => instance_after (seek p env s)
  | call_read buffer count t arrivals => instance_after (read buffer count t arrivals s)
  | call_position => instance_after (position s)
  | call_length => instance_after (length s)
  | worker_runs t steps =>
      perform_steps steps (callbacks t) (result t) (errortext t) s
  end.

Fixpoint run (cs : list call) (s : livestream) : option livestream :=
  match cs with
  | [] => Some s
  | c :: rest =>
      match exec c s with
      | Some s' => run rest s'
      | None => None
      end
  end.

Definition is_stop (c : call) : bool :=
  match c with call_stop _ => true | _ => false end.

(** ** Vocabulary of the properties *)

(** Space the producer may write, from the indices alone. *)
Definition available (s : livestream) : Z :=
  if m_bufferhead s <? m_buffertail s
  then m_buffertail s - m_bufferhead s
  else m_buffersize s - m_bufferhead s + m_buffertail s.

(** Bytes that lie between the tail and the head. *)
Definition buffered (s : livestream) : Z :=
  if m_buffertail s <=? m_bufferhead s
  then m_bufferhead s - m_buffertail s
  else m_buffersize s - m_buffertail s + m_bufferhead s.

Definition byte_at (l : list uint8_t) (i : Z) : uint8_t :=
  nth (Z.to_nat i) l Byte.x00.

(** The indices address the allocated ring.  The tail may stand at the
    capacity itself: an in-buffer [seek] to [startpos + capacity] puts it
    there, and the next [read] folds it back to zero. *)
Definition ring_ok (s : livestream) : Prop :=
  0 < m_buffersize s <= SIZE_MAX
  /\ 0 <= m_bufferhead s < m_buffersize s
  /\ 0 <= m_buffertail s <= m_buffersize s
  /\ Z.of_nat (List.length (m_buffer s)) = m_buffersize s.

(** The position registers hold 64-bit values. *)
Definition regs_ok (s : livestream) : Prop :=
  0 <= m_startpos s <= UINT64_MAX
  /\ 0 <= m_readpos s <= UINT64_MAX
  /\ 0 <= m_writepos s <= UINT64_MAX.

(** A chunk libcurl can hand over: [size * count] bytes that exist, few
    enough for the padded size to be a [size_t]. *)
Definition chunk_ok (cb : callback) : Prop :=
  match cb with
  | on_write (Some bytes) size count =>
      0 <= size * count <= Z.of_nat (List.length bytes)
      /\ size * count + WRITE_PADDING <= SIZE_MAX
  | _ => True
  end.

(** No worker, nothing started, and the reader at the origin of the stream:
    the state the constructor and [stop] leave. *)
Definition idle (s : livestream) : Prop :=
  m_worker s = NotAThread /\ m_started s = false /\ m_readpos s = m_startpos s.

(** The write callback [cb] finds room for its chunk in [s]. *)
Definition accepts (cb : callback) (s : livestream) : bool :=
  match cb with
  | on_write (Some _) size count =>
      negb (size * count =? 0) && negb (available s <? size * count + WRITE_PADDING)
  | _ => false
  end.

(** Some write callback of the transfer stores data in the ring. *)
Fixpoint data_produced (cbs : list callback) (s : livestream) : bool :=
  match cbs with
  | [] => false
  | cb :: rest =>
      accepts cb s
      || match invoke cb s with
         | Some (false, s') => data_produced rest s'
         | _ => false
         end
  end.

(** The code [curl_easy_perform] returns for the whole transfer. *)
Fixpoint transfer_result (cbs : list callback) (code : CURLcode) (s : livestream)
    : CURLcode :=
  match cbs with
  | [] => code
  | cb :: rest =>
      match invoke cb s with
      | Some (true, _) => CURLE_ABORTED_BY_CALLBACK
      | Some (false, s') => transfer_result rest code s'
      | None => code
      end
  end.

(** The text it leaves in the error buffer. *)
Fixpoint transfer_errortext (cbs : list callback) (text : string) (s : livestream)
    : string :=
  match cbs with
  | [] => text
  | cb :: rest =>
      match invoke cb s with
      | Some (true, _) => aborted_text
      | Some (false, s') => transfer_errortext rest text s'
      | None => text
      end
  end.

(** The positions after the header adapter has met a range start. *)
Definition positioned (v : Z) (s : livestream) : livestream :=
  set_startpos v (set_readpos v (set_writepos v s)).

(** The instance [reset_stream_state] and [stop] leave: positions, flags and
    indices cleared, no worker. *)
Definition cleared (s : livestream) : livestream :=
  set_buffertail 0 (set_bufferhead 0
    (set_startpos 0 (set_readpos 0 (set_writepos 0
       (set_stop false (set_paused false (set_started false s))))))).

(** *** The ring as a byte store *)

(** The ring after [n] bytes of [data] went in at [head], in one piece or
    split where the array ends. *)
Definition ring_put (capacity : Z) (buffer : list uint8_t) (head : Z)
    (data : list uint8_t) (n : Z) : list uint8_t :=
  if head + n <=? capacity then memcpy buffer head data 0 n
  else memcpy (memcpy buffer head data 0 (capacity - head))
              0 data (capacity - head) (n - (capacity - head)).

(** The destination after [m] bytes of the ring came out from [tail] on. *)
Definition ring_get (capacity : Z) (buffer : list uint8_t) (tail : Z)
    (dest : list uint8_t) (m : Z) : list uint8_t :=
  if tail + m <=? capacity then memcpy dest 0 buffer tail m
  else memcpy (memcpy dest 0 buffer tail (capacity - tail))
              (capacity - tail) buffer 0 (m - (capacity - tail)).

(** The instance after a chunk of [n] bytes was stored. *)
Definition stored (data : list uint8_t) (n : Z) (s : livestream) : livestream :=
  let w := to_uint64 (m_writepos s + n) in
  set_started true
    (set_length (Z.max (m_length s) w)
       (set_writepos w
          (set_bufferhead ((m_bufferhead s + n) mod m_buffersize s)
             (set_buffer (ring_put (m_buffersize s) (m_buffer s) (m_bufferhead s) data n)
                s)))).

(** The instance after the reader took [m] bytes. *)
Definition consumed (m : Z) (s : livestream) : livestream :=
  set_readpos (to_uint64 (m_readpos s + m))
    (set_buffertail ((m_buffertail s + m) mod m_buffersize s) s).

(** What no step of the worker thread changes: the capacity and the tail
    stay, [m_length] does not fall, [m_started] does not fall back, and a
    reader that stood at the origin of the stream still does. *)
Definition worker_frame (s s' : livestream) : Prop :=
  m_buffersize s' = m_buffersize s
  /\ m_buffertail s' = m_buffertail s
  /\ m_length s <= m_length s'
  /\ (m_started s = true -> m_started s' = true)
  /\ (m_readpos s = m_startpos s -> m_readpos s' = m_startpos s').

(** What no callback changes besides. *)
Definition callback_frame (s s' : livestream) : Prop :=
  worker_frame s s'
  /\ m_worker s' = m_worker s
  /\ m_curlresult s' = m_curlresult s
  /\ m_curlerr s' = m_curlerr s.

(** *** Seeking inside the ring *)

(** The lowest position the ring still represents. *)
Definition min_buffered (s : livestream) : Z :=
  if m_writepos s - m_startpos s >? m_buffersize s
  then m_writepos s - m_buffersize s
  else m_startpos s.

(** The tail an in-buffer seek to [position] is to set. *)
Definition sought_tail (position : Z) (s : livestream) : Z :=
  if m_writepos s - m_startpos s <=? m_buffersize s
  then position - m_startpos s
  else
    let delta := position - min_buffered s in
    if delta >=? m_buffersize s - m_bufferhead s
    then delta - (m_buffersize s - m_bufferhead s)
    else m_bufferhead s + delta.

(** *** The start of a transfer *)

(** The instance when the worker [start] has spawned for [url] enters
    [curl_easy_perform]. *)
Definition prepared (url : string) (s : livestream) : livestream :=
  spawn (set_curl (Some {| curl_url := url; curl_range := None;
                           curl_recv_paused := false |}) s).

(** The exception of line 459. *)
Definition transport_failed (url text : string) : exception :=
  string_exception ["start"; ": failed to start transfer for url "; url; ": "; text].

(** *** Histories of the ring

    [ring_history s u]: [s] comes from an empty ring by write callbacks and
    calls of [read] alone, and [u] counts the bytes stored and not yet read. *)
Inductive ring_history : livestream -> Z -> Prop :=
| ring_empty (s : livestream) :
    ring_ok s -> m_bufferhead s = m_buffertail s -> ring_history s 0
| ring_written (s s' : livestream) (u : Z) (data : option (list uint8_t))
    (size count n : Z) :
    ring_history s u -> chunk_ok (on_write data size count) ->
    curl_write data size count s = Returns n s' ->
    ring_history s'
      (u + if accepts (on_write data size count) s then size * count else 0)
| ring_read (s s' : livestream) (u : Z) (dest dest' : list uint8_t)
    (count m : Z) (t : transfer) :
    ring_history s u -> 0 <= count ->
    read (Some dest) count t 0 s = Returns (m, dest') s' ->
    ring_history s' (u - m).

(** *** Looking at an outcome *)

Definition returned {A : Type} (o : outcome A) : option A :=
  match o with Returns a _ => Some a | _ => None end.

Definition thrown {A : Type} (o : outcome A) : option exception :=
  match o with Throws e _ => Some e | _ => None end.

(** [o] returned and left the instance to [k]. *)
Definition and_then {A B : Type} (o : outcome A) (k : livestream -> outcome B)
    : outcome B :=
  match o with
  | Returns _ s => k s
  | Throws e s => Throws e s
  | Diverges => Diverges
  end.

(** Head, tail, [readpos] and [writepos] an outcome leaves. *)
Definition cursors {A : Type} (o : outcome A) : option (Z * Z * Z * Z) :=
  match instance_after o with
  | Some s => Some (m_bufferhead s, m_buffertail s, m_readpos s, m_writepos s)
  | None => None
  end.

(** *** Header lines *)

Fixpoint all_chars (p : ascii -> bool) (s : string) : bool :=
  match s with
  | EmptyString => true
  | String c rest => p c && all_chars p rest
  end.

(** The number a string of decimal digits denotes. *)
Definition digits_value (ds : string) : Z :=
  fold_left (fun acc c => 10 * acc + digit_value c) (list_ascii_of_string ds) 0.

(** A line as the specification words it: [Content-Range: bytes <start>-]. *)
Definition claimed_range_line (line : string) (start : Z) : Prop :=
  exists ds rest,
    line = ("Content-Range: bytes " ++ ds ++ "-" ++ rest)%string
    /\ ds <> EmptyString
    /\ all_chars isdigit ds = true
    /\ start = digits_value ds.

(** A line the header adapter takes a range start from: the prefix, optional
    white space, [bytes], optional white space, a sign or none, digits, and
    anything that does not go on with a digit. *)
Definition accepted_range_line (line : string) (start : Z) : Prop :=
  exists ws1 ws2 sg ds rest,
    line = ("Content-Range:" ++ ws1 ++ "bytes" ++ ws2 ++ sg ++ ds ++ rest)%string
    /\ all_chars isspace ws1 = true
    /\ all_chars isspace ws2 = true
    /\ (sg = "" \/ sg = "+" \/ sg = "-")
    /\ ds <> EmptyString
    /\ all_chars isdigit ds = true
    /\ isdigit (str_head rest) = false
    /\ start = strtoull_value (String.eqb sg "-") (digits_value ds).

(** *** Capacity *)

(** [c] is the smallest multiple of [a] that is at least [v]. *)
Definition smallest_multiple_from (a v c : Z) : Prop :=
  c mod a = 0 /\ v <= c /\ forall m, m mod a = 0 -> v <= m -> c <= m.

(** The capacity the constructor gives an instance, when it gives one. *)
Definition constructed_capacity (operator_new : Z -> option (list uint8_t))
    (buffersize : Z) : option Z :=
  match livestream_ctor operator_new buffersize with
  | inr s => Some (m_buffersize s)
  | inl _ => None
  end.

(** ** Sample inputs

    The padding is taken to be one byte where a number is needed; [fresh] is
    the instance the constructor then yields for a request of 65535 bytes, a
    ring of 65536. *)

Definition sample_padding : Z := 1.

(** An allocator that hands out zeroed blocks up to [limit] bytes. *)
Definition zeroed_block (limit n : Z) : option (list uint8_t) :=
  if (0 <=? n) && (n <=? limit) then Some (repeat Byte.x00 (Z.to_nat n)) else None.

Definition fresh : livestream :=
  {| m_buffersize := 65536; m_buffer := repeat Byte.x00 (Z.to_nat 65536);
     m_bufferhead := 0; m_buffertail := 0;
     m_startpos := 0; m_readpos := 0; m_writepos := 0; m_length := 0;
     m_started := false; m_paused := false; m_stop := false;
     m_worker := NotAThread; m_curl := None;
     m_curlresult := CURLE_OK; m_curlerr := "" |}.

Definition sample_url : string := "http://192.168.0.10:5004/auto/v5.1".

Definition setup_ok : setup := {| easy_init_ok := true; setopt_result := CURLE_OK |}.

Definition chunk (b : uint8_t) (n : Z) : callback :=
  on_write (Some (repeat b (Z.to_nat n))) 1 n.

(** A transfer that answers [Content-Range: bytes 0-] and delivers one chunk
    of 10000 bytes before libcurl gives up with a receive error. *)
Definition failing_after_data : transfer :=
  {| callbacks := [on_header "Content-Range: bytes 0-" 1 23; chunk Byte.x01 10000];
     result := 56;
     errortext := "Failure when receiving data from the peer" |}.

(** A transfer with nothing left to do. *)
Definition finished : transfer :=
  {| callbacks := []; result := CURLE_OK; errortext := "" |}.

Definition no_restart : restart :=
  {| joined := finished; range_result := CURLE_OK; restarted := finished;
     resumed_late := 0 |}.

(** A running instance whose reader has taken the 60000 bytes written. *)
Definition midstream : livestream :=
  {| m_buffersize := 65536; m_buffer := repeat Byte.x01 (Z.to_nat 65536);
     m_bufferhead := 60000; m_buffertail := 60000;
     m_startpos := 0; m_readpos := 60000; m_writepos := 60000; m_length := 60000;
     m_started := true; m_paused := false; m_stop := false;
     m_worker := Running;
     m_curl := Some {| curl_url := sample_url; curl_range := None;
                       curl_recv_paused := false |};
     m_curlresult := CURLE_OK; m_curlerr := "" |}.

Definition four_bytes : list uint8_t := [Byte.x01; Byte.x02; Byte.x03; Byte.x04].

(** A running instance whose reader was sent back to position 200. *)
Definition rewound : livestream :=
  set_readpos 200 (set_buffertail 200 midstream).

Definition one_more_chunk : transfer :=
  {| callbacks := [chunk Byte.x02 4]; result := CURLE_OK; errortext := "" |}.

(** The ring of [fresh] takes 60000 bytes in six chunks, the reader takes
    them all, and a seventh chunk wraps the ring: 70000 bytes written, the
    last 65536 of them in the array. *)
Definition ten_thousand (b : uint8_t) (s : livestream) : outcome Z :=
  curl_write (Some (repeat b (Z.to_nat 10000))) 1 10000 s.

Definition wrapped_ring : outcome Z :=
  and_then (start (Some sample_url) setup_ok
              {| callbacks := [on_header "Content-Range: bytes 0-" 1 23;
                               chunk Byte.x01 10000];
                 result := CURLE_OK; errortext := "" |} 0 fresh)
    (fun s => and_then (ten_thousand Byte.x02 s)
    (fun s => and_then (ten_thousand Byte.x03 s)
    (fun s => and_then (ten_thousand Byte.x04 s)
    (fun s => and_then (ten_thousand Byte.x05 s)
    (fun s => and_then (ten_thousand Byte.x06 s)
    (fun s => and_then (read (Some (repeat Byte.x00 (Z.to_nat 60000)))
                          60000 finished 0 s)
    (fun s => ten_thousand Byte.x07 s))))))).

(** The ring of [fresh] takes exactly its capacity, in eight chunks of 8192
    bytes, the reader following up to the seventh. *)
Definition eight_k (b : uint8_t) (s : livestream) : outcome Z :=
  curl_write (Some (repeat b (Z.to_nat 8192))) 1 8192 s.

Definition ring_written_once : outcome Z :=
  and_then (start (Some sample_url) setup_ok
              {| callbacks := [on_header "Content-Range: bytes 0-" 1 23;
                               chunk Byte.x01 8192];
                 result := CURLE_OK; errortext := "" |} 0 fresh)
    (fun s => and_then (eight_k Byte.x02 s)
    (fun s => and_then (eight_k Byte.x03 s)
    (fun s => and_then (eight_k Byte.x04 s)
    (fun s => and_then (eight_k Byte.x05 s)
    (fun s => and_then (eight_k Byte.x06 s)
    (fun s => and_then (eight_k Byte.x07 s)
    (fun s => and_then (read (Some (repeat Byte.x00 (Z.to_nat 57344)))
                          57344 finished 0 s)
    (fun s => eight_k Byte.x08 s)))))))).

(** * Properties *)

(** ** Machine integers *)

Lemma to_size_t_small (z : Z) : 0 <= z <= SIZE_MAX -> to_size_t z = z.
Proof.
  intros H. unfold to_size_t, SIZE_MAX in *. apply Z.mod_small. lia.
Qed.

Lemma to_uint64_small (z : Z) : 0 <= z <= UINT64_MAX -> to_uint64 z = z.
Proof.
  intros H. unfold to_uint64, UINT64_MAX in *. apply Z.mod_small. lia.
Qed.

Lemma to_uint64_range (z : Z) : 0 <= to_uint64 z <= UINT64_MAX.
Proof.
  unfold to_uint64, UINT64_MAX.
  assert (0 <= z mod 2 ^ 64 < 2 ^ 64) by (apply Z.mod_pos_bound; lia). lia.
Qed.

(** ** align_up and the capacity *)

Lemma align_up_rejects (value alignment : Z) :
  alignment < 1 -> align_up value alignment = inl (out_of_range "alignment").
Proof.
  intros H. unfold align_up.
  destruct (alignment <? 1) eqn:E; [reflexivity | apply Z.ltb_ge in E; lia].
Qed.

Lemma align_up_smallest (value alignment : Z) :
  1 <= alignment -> 0 <= value -> value + alignment <= SIZE_MAX + 1 ->
  exists c, align_up value alignment = inr c
            /\ smallest_multiple_from alignment value c
            /\ c < value + alignment.
Proof.
  intros Ha Hv Hfit. unfold align_up.
  destruct (alignment <? 1) eqn:E; [apply Z.ltb_lt in E; lia | clear E].
  destruct (value =? 0) eqn:E0.
  - apply Z.eqb_eq in E0. subst value. exists 0. split; [reflexivity | ].
    split; [ | lia]. split; [ | split].
    + apply Z.mod_0_l; lia.
    + lia.
    + intros m _ Hm. exact Hm.
  - apply Z.eqb_neq in E0.
    pose proof (Z.mod_pos_bound value alignment ltac:(lia)) as Hr.
    pose proof (Z.div_mod value alignment ltac:(lia)) as Hdm.
    set (q := value / alignment) in *. set (r := value mod alignment) in *.
    assert (Hpad : (alignment - r) mod alignment = if r =? 0 then 0 else alignment - r).
    { destruct (r =? 0) eqn:Er.
      - apply Z.eqb_eq in Er. rewrite Er, Z.sub_0_r. apply Z.mod_same; lia.
      - apply Z.eqb_neq in Er. apply Z.mod_small; lia. }
    rewrite Hpad.
    assert (Hq : 0 <= q) by (apply Z.div_pos; lia).
    destruct (r =? 0) eqn:Er.
    + apply Z.eqb_eq in Er.
      exists value. rewrite Z.add_0_r, to_size_t_small by lia.
      split; [reflexivity | ]. split; [ | lia]. split; [ | split].
      * exact Er.
      * lia.
      * intros m _ Hm. exact Hm.
    + apply Z.eqb_neq in Er.
      exists (alignment * (q + 1)).
      replace (value + (alignment - r)) with (alignment * (q + 1)) by lia.
      rewrite to_size_t_small by nia.
      split; [reflexivity | ]. split; [ | nia]. split; [ | split].
      * rewrite Z.mul_comm. apply Z.mod_mul; lia.
      * nia.
      * intros m Hm Hle.
        pose proof (Z.div_mod m alignment ltac:(lia)) as Hm'.
        rewrite Hm, Z.add_0_r in Hm'.
        assert (q < m / alignment) by nia. nia.
Qed.

(** C9 (amended): as long as the padded request leaves room for the rounding
    in a [size_t], the capacity of a constructed instance is the smallest
    multiple of 65536 that is at least [buffersize + WRITE_PADDING]; it is
    positive and exceeds [WRITE_PADDING].  [align_up] throws [out_of_range]
    for an alignment below 1 and otherwise yields the smallest multiple of the
    alignment from the value on, when that multiple is a [size_t]. *)
Theorem capacity_is_aligned_padded_request
    (operator_new : Z -> option (list uint8_t)) (buffersize : Z) :
  0 <= WRITE_PADDING ->
  0 <= buffersize ->
  buffersize + WRITE_PADDING + 65535 <= SIZE_MAX ->
  0 < buffersize \/ WRITE_PADDING mod 65536 <> 0 ->
  (forall v a, a < 1 -> align_up v a = inl (out_of_range "alignment"))
  /\ (forall v a, 1 <= a -> 0 <= v -> v + a <= SIZE_MAX + 1 ->
        exists c, align_up v a = inr c /\ smallest_multiple_from a v c)
  /\ exists C,
       align_up (buffersize + WRITE_PADDING) 65536 = inr C
       /\ smallest_multiple_from 65536 (buffersize + WRITE_PADDING) C
       /\ 0 < C /\ C mod 65536 = 0 /\ WRITE_PADDING < C
       /\ (livestream_ctor operator_new buffersize = inl bad_alloc
           \/ constructed_capacity operator_new buffersize = Some C).
Proof.
  intros Hpad Hreq Hfit Hpos.
  split; [exact align_up_rejects | ].
  split.
  { intros v a Ha Hv Hva.
    destruct (align_up_smallest v a Ha Hv Hva) as (c & Hc & Hs & _). eauto. }
  destruct (align_up_smallest (buffersize + WRITE_PADDING) 65536) as (C & HC & Hs & Hlt);
    [lia | lia | unfold SIZE_MAX in *; lia | ].
  exists C. split; [exact HC | ]. split; [exact Hs | ].
  destruct Hs as (Hmod & Hge & Hleast).
  assert (HposC : 0 < C /\ WRITE_PADDING < C).
  { destruct Hpos as [Hb | Hw]; [lia | ].
    assert (C <> WRITE_PADDING) by (intros ->; contradiction).
    assert (WRITE_PADDING <> 0) by (intros E; rewrite E in Hw; apply Hw; reflexivity).
    lia. }
  split; [lia | ]. split; [exact Hmod | ]. split; [lia | ].
  unfold constructed_capacity, livestream_ctor.
  rewrite to_size_t_small by (unfold SIZE_MAX in *; lia).
  rewrite HC.
  destruct (operator_new C); [ | left; reflexivity].
  destruct (operator_new CURL_ERROR_SIZE); [right; reflexivity | left; reflexivity].
Qed.

(** ** Strings *)

Lemma isspace_not_NUL (c : ascii) : isspace c = true -> Ascii.eqb c NUL = false.
Proof.
  intros H. destruct (Ascii.eqb c NUL) eqn:E; [ | reflexivity].
  apply Ascii.eqb_eq in E. subst c. discriminate H.
Qed.

Lemma isdigit_not_NUL (c : ascii) : isdigit c = true -> Ascii.eqb c NUL = false.
Proof.
  intros H. destruct (Ascii.eqb c NUL) eqn:E; [ | reflexivity].
  apply Ascii.eqb_eq in E. subst c. discriminate H.
Qed.

Lemma isdigit_not_isspace (c : ascii) : isdigit c = true -> isspace c = false.
Proof.
  unfold isdigit, isspace. intros H.
  apply andb_true_iff in H. destruct H as [H1 H2].
  apply Nat.leb_le in H1. apply Nat.leb_le in H2.
  apply orb_false_iff. split.
  - apply Nat.eqb_neq. lia.
  - apply andb_false_iff. right. apply Nat.leb_gt. lia.
Qed.

Lemma c_str_app (p : ascii -> bool) (a b : string) :
  (forall c, p c = true -> Ascii.eqb c NUL = false) ->
  all_chars p a = true -> c_str (a ++ b) = (a ++ c_str b)%string.
Proof.
  intros Hp. induction a as [ | c a IH]; simpl; intros Ha; [reflexivity | ].
  apply andb_true_iff in Ha. destruct Ha as [Hc Ha].
  rewrite (Hp c Hc), IH by exact Ha. reflexivity.
Qed.

(** What [c_str] yields is a prefix of the memory it reads. *)
Lemma c_str_prefix (a : string) : forall s b,
  c_str s = (a ++ b)%string -> exists b', s = (a ++ b')%string /\ c_str b' = b.
Proof.
  induction a as [ | c a IH]; simpl; intros s b H.
  - exists s. split; [reflexivity | exact H].
  - destruct s as [ | c' s]; simpl in H; [discriminate | ].
    destruct (Ascii.eqb c' NUL); [discriminate | ].
    injection H as Hc H. subst c'.
    destruct (IH s b H) as (b' & Hs & Hb). exists b'. subst s. split; [reflexivity | exact Hb].
Qed.

Lemma str_head_c_str_digit (s : string) :
  isdigit (str_head (c_str s)) = false -> isdigit (str_head s) = false.
Proof.
  destruct s as [ | c s]; simpl; [trivial | ].
  destruct (Ascii.eqb c NUL) eqn:E; simpl; [ | trivial].
  apply Ascii.eqb_eq in E. subst c. reflexivity.
Qed.

Lemma skip_space_app (ws s : string) :
  all_chars isspace ws = true -> isspace (str_head s) = false ->
  skip_space (ws ++ s) = s.
Proof.
  intros Hws Hs. induction ws as [ | c ws IH]; simpl in *.
  - destruct s as [ | c s]; [reflexivity | ]. simpl in Hs. simpl. rewrite Hs. reflexivity.
  - apply andb_true_iff in Hws. destruct Hws as [Hc Hws]. rewrite Hc. exact (IH Hws).
Qed.

Lemma skip_space_inv (s : string) :
  exists ws, s = (ws ++ skip_space s)%string
             /\ all_chars isspace ws = true
             /\ isspace (str_head (skip_space s)) = false.
Proof.
  induction s as [ | c s IH]; simpl.
  - exists EmptyString. repeat split.
  - destruct (isspace c) eqn:E.
    + destruct IH as (ws & Hs & Hws & Hh). exists (String c ws). simpl.
      rewrite E, Hws. rewrite <- Hs. repeat split. exact Hh.
    + exists EmptyString. simpl. repeat split. exact E.
Qed.

Lemma scan_digits_app (ds rest : string) : forall acc,
  all_chars isdigit ds = true -> isdigit (str_head rest) = false ->
  scan_digits (ds ++ rest) acc
  = (fold_left (fun a c => 10 * a + digit_value c) (list_ascii_of_string ds) acc, rest).
Proof.
  induction ds as [ | c ds IH]; simpl; intros acc Hds Hrest.
  - destruct rest as [ | c rest]; [reflexivity | ].
    simpl in Hrest. simpl. rewrite Hrest. reflexivity.
  - apply andb_true_iff in Hds. destruct Hds as [Hc Hds]. rewrite Hc. apply IH; assumption.
Qed.

Lemma scan_digits_inv (s : string) : forall acc v rest,
  scan_digits s acc = (v, rest) ->
  exists ds, s = (ds ++ rest)%string
             /\ all_chars isdigit ds = true
             /\ isdigit (str_head rest) = false
             /\ v = fold_left (fun a c => 10 * a + digit_value c) (list_ascii_of_string ds) acc.
Proof.
  induction s as [ | c s IH]; simpl; intros acc v rest H.
  - injection H as <- <-. exists EmptyString. repeat split.
  - destruct (isdigit c) eqn:E.
    + destruct (IH _ _ _ H) as (ds & Hs & Hds & Hr & Hv).
      exists (String c ds). simpl. rewrite E, Hds. subst s. repeat split; assumption.
    + injection H as <- <-. exists EmptyString. simpl. repeat split. exact E.
Qed.

Lemma strncmp_prefix (p : string) : forall s,
  all_chars (fun c => negb (Ascii.eqb c NUL)) p = true ->
  (strncmp p s (String.length p) = 0 <-> exists t, s = (p ++ t)%string).
Proof.
  induction p as [ | c p IH]; simpl; intros s Hp.
  - split; [intros _; exists s; reflexivity | reflexivity].
  - apply andb_true_iff in Hp. destruct Hp as [Hc Hp].
    apply negb_true_iff in Hc.
    split.
    + intros H. destruct s as [ | c' s]; simpl in H.
      * rewrite Hc in H. destruct (nat_of_ascii c <? nat_of_ascii NUL)%nat; discriminate.
      * destruct (Ascii.eqb c c') eqn:E.
        -- apply Ascii.eqb_eq in E. subst c'. rewrite Hc in H.
           apply (IH s Hp) in H. destruct H as (t & ->). exists t. reflexivity.
        -- destruct (nat_of_ascii c <? nat_of_ascii c')%nat; discriminate.
    + intros (t & ->). simpl. rewrite Ascii.eqb_refl, Hc.
      apply (IH (p ++ t)%string Hp). exists t. reflexivity.
Qed.

(** ** The [sscanf] of the header adapter *)

Lemma content_range_format :
  parse_format "Content-Range: bytes %llu-"
  = map Ordinary (list_ascii_of_string "Content-Range:")
    ++ WhiteSpace :: map Ordinary (list_ascii_of_string "bytes")
    ++ [WhiteSpace; Conversion_llu; Ordinary "-"].
Proof. reflexivity. Qed.

Lemma scan_literal (lit : string) (ds : list directive) : forall rest a,
  scan (map Ordinary (list_ascii_of_string lit) ++ ds) (lit ++ rest) a = scan ds rest a.
Proof.
  induction lit as [ | c lit IH]; simpl; intros rest a; [reflexivity | ].
  rewrite Ascii.eqb_refl. apply IH.
Qed.

Lemma scan_literal_inv (lit : string) (ds : list directive) : forall x l,
  scan (map Ordinary (list_ascii_of_string lit) ++ ds) x [] = (1, l) ->
  exists rest, x = (lit ++ rest)%string /\ scan ds rest [] = (1, l).
Proof.
  induction lit as [ | c lit IH]; simpl; intros x l H.
  - exists x. split; [reflexivity | exact H].
  - destruct x as [ | c' x]; [discriminate H | ].
    destruct (Ascii.eqb c c') eqn:E; [ | discriminate H].
    apply Ascii.eqb_eq in E. subst c'.
    destruct (IH x l H) as (rest & -> & Hr). exists rest. split; [reflexivity | exact Hr].
Qed.

Lemma scan_trailing_dash (r : string) (v : Z) : scan [Ordinary "-"] r [v] = (1, [v]).
Proof.
  destruct r as [ | c r]; [reflexivity | ].
  change (scan [Ordinary "-"] (String c r) [v])
    with (if Ascii.eqb "-" c then scan [] r [v] else (Z.of_nat (List.length [v]), [v])).
  destruct (Ascii.eqb "-" c); reflexivity.
Qed.

Lemma digit_is_no_sign (c : ascii) :
  isdigit c = true -> Ascii.eqb c "-" = false /\ Ascii.eqb c "+" = false.
Proof.
  intros H. split.
  - destruct (Ascii.eqb c "-") eqn:E; [ | reflexivity].
    apply Ascii.eqb_eq in E. subst c. discriminate H.
  - destruct (Ascii.eqb c "+") eqn:E; [ | reflexivity].
    apply Ascii.eqb_eq in E. subst c. discriminate H.
Qed.

Lemma digits_nonempty_head (ds rest : string) :
  ds <> EmptyString -> all_chars isdigit ds = true ->
  isdigit (str_head (ds ++ rest)) = true.
Proof.
  destruct ds as [ | c ds]; [congruence | ]. simpl. intros _ H.
  apply andb_true_iff in H. tauto.
Qed.

Lemma scan_llu_subject (sg ds rest : string) :
  sg = "" \/ sg = "+" \/ sg = "-" ->
  ds <> EmptyString -> all_chars isdigit ds = true ->
  isdigit (str_head rest) = false ->
  scan_llu (sg ++ ds ++ rest)
  = Some (strtoull_value (String.eqb sg "-") (digits_value ds), rest).
Proof.
  intros Hsg Hne Hds Hrest.
  pose proof (digits_nonempty_head ds rest Hne Hds) as Hhead.
  unfold scan_llu, digits_value.
  destruct Hsg as [-> | [-> | ->]]; simpl.
  - destruct (digit_is_no_sign _ Hhead) as [E1 E2]. rewrite E1, E2. simpl.
    rewrite Hhead, scan_digits_app by assumption. reflexivity.
  - rewrite Hhead, scan_digits_app by assumption. reflexivity.
  - rewrite Hhead, scan_digits_app by assumption. reflexivity.
Qed.

Lemma scan_llu_inv (y : string) (v : Z) (r : string) :
  scan_llu y = Some (v, r) ->
  exists sg ds,
    y = (sg ++ ds ++ r)%string
    /\ (sg = "" \/ sg = "+" \/ sg = "-")
    /\ ds <> EmptyString /\ all_chars isdigit ds = true
    /\ isdigit (str_head r) = false
    /\ v = strtoull_value (String.eqb sg "-") (digits_value ds).
Proof.
  unfold scan_llu. intros H.
  set (c := str_head y) in *.
  assert (Hdig : forall s1 neg,
             (if isdigit (str_head s1)
              then let '(v0, rest) := scan_digits s1 0 in Some (strtoull_value neg v0, rest)
              else None) = Some (v, r) ->
             exists ds, s1 = (ds ++ r)%string /\ ds <> EmptyString
                        /\ all_chars isdigit ds = true /\ isdigit (str_head r) = false
                        /\ v = strtoull_value neg (digits_value ds)).
  { intros s1 neg Hs1. destruct (isdigit (str_head s1)) eqn:Eh; [ | discriminate].
    destruct (scan_digits s1 0) as [v0 rest] eqn:Es. injection Hs1 as <- <-.
    destruct (scan_digits_inv _ _ _ _ Es) as (ds & Hs & Hds & Hr & Hv).
    exists ds. repeat split; try assumption.
    - intros ->. simpl in Hs. subst s1. congruence.
    - subst v0. reflexivity. }
  destruct (Ascii.eqb c "-") eqn:Em; simpl in H.
  - apply Ascii.eqb_eq in Em. destruct y as [ | c' y]; [discriminate Em | ].
    simpl in c. subst c. subst c'. simpl in H.
    destruct (Hdig _ _ H) as (ds & -> & Hne & Hds & Hr & Hv).
    exists "-"%string, ds. repeat split; auto.
  - destruct (Ascii.eqb c "+") eqn:Ep; simpl in H.
    + apply Ascii.eqb_eq in Ep. destruct y as [ | c' y]; [discriminate Ep | ].
      simpl in c. subst c. subst c'. simpl in H.
      destruct (Hdig _ _ H) as (ds & -> & Hne & Hds & Hr & Hv).
      exists "+"%string, ds. repeat split; auto.
    + destruct (Hdig _ _ H) as (ds & -> & Hne & Hds & Hr & Hv).
      exists ""%string, ds. repeat split; auto.
Qed.

Lemma skip_space_stable (s : string) :
  isspace (str_head s) = false -> skip_space s = s.
Proof. intros H. exact (skip_space_app EmptyString s eq_refl H). Qed.

Lemma subject_head_no_space (sg ds rest : string) :
  sg = "" \/ sg = "+" \/ sg = "-" ->
  ds <> EmptyString -> all_chars isdigit ds = true ->
  isspace (str_head (sg ++ ds ++ rest)) = false.
Proof.
  intros Hsg Hne Hds. destruct Hsg as [-> | [-> | ->]]; [ | reflexivity | reflexivity].
  simpl. apply isdigit_not_isspace. apply digits_nonempty_head; assumption.
Qed.

Lemma str_head_c_str_no_digit (s : string) :
  isdigit (str_head s) = false -> isdigit (str_head (c_str s)) = false.
Proof.
  destruct s as [ | c s]; simpl; [trivial | ].
  destruct (Ascii.eqb c NUL); simpl; [reflexivity | trivial].
Qed.

Lemma c_str_sign (sg s : string) :
  sg = "" \/ sg = "+" \/ sg = "-" -> c_str (sg ++ s) = (sg ++ c_str s)%string.
Proof. intros [-> | [-> | ->]]; reflexivity. Qed.

Lemma scan_conversion (ds : list directive) (x : string) (a : list Z) :
  scan (Conversion_llu :: ds) x a
  = match scan_llu (skip_space x) with
    | Some (v, rest) => scan ds rest (a ++ [v])
    | None => scan_stopped (skip_space x) a
    end.
Proof. reflexivity. Qed.

Lemma sscanf_accepted (line : string) (v : Z) :
  accepted_range_line line v ->
  sscanf line "Content-Range: bytes %llu-" = (1, [v]).
Proof.
  intros (ws1 & ws2 & sg & ds & rest & -> & Hws1 & Hws2 & Hsg & Hne & Hds & Hrest & ->).
  unfold sscanf. rewrite content_range_format.
  rewrite (c_str_app (fun c => negb (Ascii.eqb c NUL)) "Content-Range:")
    by (intros c Hc; apply negb_true_iff in Hc; exact Hc) || reflexivity.
  rewrite (c_str_app isspace ws1) by (exact isspace_not_NUL || exact Hws1).
  rewrite (c_str_app (fun c => negb (Ascii.eqb c NUL)) "bytes")
    by (intros c Hc; apply negb_true_iff in Hc; exact Hc) || reflexivity.
  rewrite (c_str_app isspace ws2) by (exact isspace_not_NUL || exact Hws2).
  rewrite (c_str_sign sg) by exact Hsg.
  rewrite (c_str_app isdigit ds) by (exact isdigit_not_NUL || exact Hds).
  apply str_head_c_str_no_digit in Hrest.
  rewrite scan_literal.
  change (scan (WhiteSpace :: ?ds') ?x ?a) with (scan ds' (skip_space x) a).
  rewrite skip_space_app by (exact Hws1 || reflexivity).
  rewrite scan_literal.
  change (scan (WhiteSpace :: ?ds') ?x ?a) with (scan ds' (skip_space x) a).
  pose proof (subject_head_no_space sg ds (c_str rest) Hsg Hne Hds) as Hhead.
  rewrite skip_space_app by (exact Hws2 || exact Hhead).
  rewrite scan_conversion, (skip_space_stable _ Hhead).
  rewrite scan_llu_subject by assumption.
  cbn [app]. apply scan_trailing_dash.
Qed.

Lemma sscanf_accepted_inv (line : string) (v : Z) :
  sscanf line "Content-Range: bytes %llu-" = (1, [v]) ->
  accepted_range_line line v.
Proof.
  unfold sscanf. rewrite content_range_format. intros H.
  apply scan_literal_inv in H. destruct H as (x1 & Hline & H).
  change (scan (WhiteSpace :: ?ds') ?x ?a) with (scan ds' (skip_space x) a) in H.
  apply scan_literal_inv in H. destruct H as (x2 & Hx1 & H).
  change (scan (WhiteSpace :: ?ds') ?x ?a) with (scan ds' (skip_space x) a) in H.
  rewrite scan_conversion in H.
  destruct (skip_space_inv x1) as (ws1 & Ex1 & Hws1 & _).
  destruct (skip_space_inv x2) as (ws2 & Ex2 & Hws2 & Hh2).
  rewrite (skip_space_stable _ Hh2) in H.
  destruct (scan_llu (skip_space x2)) as [[v' r] | ] eqn:Ellu.
  - cbn [app] in H. rewrite scan_trailing_dash in H. injection H as <-.
    destruct (scan_llu_inv _ _ _ Ellu) as (sg & ds & Ey & Hsg & Hne & Hds & Hr & Hv).
    rewrite Ey in Ex2. rewrite Hx1 in Ex1. rewrite Ex2 in Ex1. rewrite Ex1 in Hline.
    apply c_str_prefix in Hline. destruct Hline as (l1 & -> & Hl1).
    apply c_str_prefix in Hl1. destruct Hl1 as (l2 & -> & Hl2).
    apply c_str_prefix in Hl2. destruct Hl2 as (l3 & -> & Hl3).
    apply c_str_prefix in Hl3. destruct Hl3 as (l4 & -> & Hl4).
    apply c_str_prefix in Hl4. destruct Hl4 as (l5 & -> & Hl5).
    apply c_str_prefix in Hl5. destruct Hl5 as (l6 & -> & Hl6).
    exists ws1, ws2, sg, ds, l6. subst r.
    repeat split; try assumption. apply str_head_c_str_digit. exact Hr.
  - destruct (skip_space x2); discriminate H.
Qed.

(** C8 (amended): for a header line of [b > 0] bytes the header adapter
    returns [b]; it sets [startpos], [readpos] and [writepos] to [start]
    exactly when the line is [Content-Range:], optional white space, [bytes],
    optional white space and an optionally signed decimal number [start],
    whether or not a [-] follows; every other line leaves the instance as it
    was.  A line [Content-Range: bytes <start>-] with [start] in the range of
    [unsigned long long] is among the accepted ones. *)
Theorem header_adapter_sets_range_start (line : string) (size count : Z)
    (s : livestream) :
  0 < Z.of_nat (String.length line) <= SIZE_MAX ->
  size * count = Z.of_nat (String.length line) ->
  fst (curl_responseheaders line size count s) = Z.of_nat (String.length line)
  /\ (forall start, accepted_range_line line start ->
        snd (curl_responseheaders line size count s) = positioned start s)
  /\ ((forall start, ~ accepted_range_line line start) ->
        snd (curl_responseheaders line size count s) = s)
  /\ (forall start, claimed_range_line line start -> start <= ULLONG_MAX ->
        accepted_range_line line start).
Proof.
  intros Hb Hcb.
  unfold curl_responseheaders. rewrite Hcb, to_size_t_small by lia.
  destruct (Z.of_nat (String.length line) =? 0) eqn:E0; [apply Z.eqb_eq in E0; lia | ].
  split; [ | split; [ | split]].
  - destruct (_ && _); [ | reflexivity].
    destruct (sscanf line _) as [[ | [p | p | ] | p] [ | v [ | w l]]]; reflexivity.
  - intros start Hacc.
    pose proof (sscanf_accepted _ _ Hacc) as Hscan. rewrite Hscan.
    destruct Hacc as (ws1 & ws2 & sg & ds & rest & Hline & _).
    assert (Hlen : (14 <= String.length line)%nat).
    { rewrite Hline. simpl. lia. }
    assert (Hcmp : strncmp CONTENT_RANGE_HEADER line (Z.to_nat CONTENT_RANGE_HEADER_LEN) = 0).
    { apply (strncmp_prefix "Content-Range:" line eq_refl). rewrite Hline. eauto. }
    rewrite Hcmp.
    replace (Z.of_nat (String.length line) >=? CONTENT_RANGE_HEADER_LEN) with true.
    + reflexivity.
    + symmetry. apply Z.geb_le. unfold CONTENT_RANGE_HEADER_LEN. simpl String.length. lia.
  - intros Hnone.
    destruct (_ && _); [ | reflexivity].
    destruct (sscanf line _) as [n l] eqn:Escan.
    destruct n as [ | [p | p | ] | p]; try reflexivity.
    destruct l as [ | v [ | w l]]; try reflexivity.
    exfalso. exact (Hnone v (sscanf_accepted_inv _ _ Escan)).
  - intros start (ds & rest & Hline & Hne & Hds & Hstart) Hmax.
    exists " "%string, " "%string, ""%string, ds, ("-" ++ rest)%string.
    repeat split; try assumption; try reflexivity.
    + left. reflexivity.
    + subst start. unfold strtoull_value. simpl String.eqb.
      destruct (digits_value ds >? ULLONG_MAX) eqn:E; [ | reflexivity].
      apply Z.gtb_lt in E. lia.
Qed.

(** ** Byte arrays *)

Lemma length_memcpy (dst src : list uint8_t) (d s n : Z) :
  0 <= d -> 0 <= s -> 0 <= n ->
  d + n <= Z.of_nat (List.length dst) -> s + n <= Z.of_nat (List.length src) ->
  List.length (memcpy dst d src s n) = List.length dst.
Proof.
  intros Hd Hs Hn Hdst Hsrc. unfold memcpy.
  rewrite !length_app, !length_firstn, !length_skipn. lia.
Qed.

Lemma memcpy_nothing (dst src : list uint8_t) (d s : Z) : memcpy dst d src s 0 = dst.
Proof.
  unfold memcpy. rewrite Z.add_0_r. simpl. apply firstn_skipn.
Qed.

Lemma byte_at_memcpy (dst src : list uint8_t) (d s n j : Z) :
  0 <= d -> 0 <= s -> 0 <= n -> 0 <= j ->
  d <= Z.of_nat (List.length dst) -> s + n <= Z.of_nat (List.length src) ->
  byte_at (memcpy dst d src s n) j
  = if (d <=? j) && (j <? d + n) then byte_at src (s + (j - d)) else byte_at dst j.
Proof.
  intros Hd Hs Hn Hj Hdst Hsrc. unfold byte_at, memcpy.
  assert (L1 : List.length (firstn (Z.to_nat d) dst) = Z.to_nat d)
    by (rewrite length_firstn; lia).
  assert (L2 : List.length (firstn (Z.to_nat n) (skipn (Z.to_nat s) src)) = Z.to_nat n)
    by (rewrite length_firstn, length_skipn; lia).
  destruct (d <=? j) eqn:E1; simpl.
  - apply Z.leb_le in E1.
    rewrite app_nth2 by lia. rewrite L1.
    destruct (j <? d + n) eqn:E2.
    + apply Z.ltb_lt in E2.
      rewrite app_nth1 by lia.
      rewrite nth_firstn.
      replace (Z.to_nat j - Z.to_nat d <? Z.to_nat n)%nat with true
        by (symmetry; apply Nat.ltb_lt; lia).
      rewrite nth_skipn. f_equal. lia.
    + apply Z.ltb_ge in E2.
      rewrite app_nth2 by lia. rewrite L2.
      rewrite nth_skipn. f_equal. lia.
  - apply Z.leb_gt in E1.
    rewrite app_nth1 by lia.
    rewrite nth_firstn.
    replace (Z.to_nat j <? Z.to_nat d)%nat with true
      by (symmetry; apply Nat.ltb_lt; lia).
    reflexivity.
Qed.

Lemma mod_below (x c : Z) : 0 <= x < c -> x mod c = x.
Proof. intros H. apply Z.mod_small. exact H. Qed.

Lemma mod_wrapped (x c : Z) : c <= x < 2 * c -> x mod c = x - c.
Proof.
  intros H. symmetry. apply (Z.mod_unique x c 1 (x - c)); lia.
Qed.

Lemma length_ring_put (capacity head n : Z) (buffer data : list uint8_t) :
  0 <= head < capacity -> 0 <= n <= capacity ->
  Z.of_nat (List.length buffer) = capacity -> n <= Z.of_nat (List.length data) ->
  List.length (ring_put capacity buffer head data n) = List.length buffer.
Proof.
  intros Hh Hn Hlen Hdata. unfold ring_put.
  destruct (head + n <=? capacity) eqn:E.
  - apply Z.leb_le in E. apply length_memcpy; lia.
  - apply Z.leb_gt in E.
    rewrite length_memcpy; [ | lia | lia | lia | | lia].
    + apply length_memcpy; lia.
    + rewrite length_memcpy by lia. lia.
Qed.

Lemma byte_at_ring_put (capacity head n i : Z) (buffer data : list uint8_t) :
  0 <= head < capacity -> 0 <= n <= capacity ->
  Z.of_nat (List.length buffer) = capacity -> n <= Z.of_nat (List.length data) ->
  0 <= i < n ->
  byte_at (ring_put capacity buffer head data n) ((head + i) mod capacity)
  = byte_at data i.
Proof.
  intros Hh Hn Hlen Hdata Hi. unfold ring_put.
  destruct (head + n <=? capacity) eqn:E.
  - apply Z.leb_le in E. rewrite mod_below by lia.
    rewrite byte_at_memcpy by lia.
    replace ((head <=? head + i) && (head + i <? head + n)) with true.
    + f_equal. lia.
    + symmetry. apply andb_true_iff. split; [apply Z.leb_le | apply Z.ltb_lt]; lia.
  - apply Z.leb_gt in E.
    assert (L1 : List.length (memcpy buffer head data 0 (capacity - head)) = List.length buffer)
      by (apply length_memcpy; lia).
    destruct (Z_lt_le_dec (head + i) capacity) as [Hlow | Hhigh].
    + rewrite mod_below by lia.
      rewrite byte_at_memcpy by lia.
      replace ((0 <=? head + i) && (head + i <? 0 + (n - (capacity - head)))) with false
        by (symmetry; apply andb_false_iff; right; apply Z.ltb_ge; lia).
      rewrite byte_at_memcpy by lia.
      replace ((head <=? head + i) && (head + i <? head + (capacity - head))) with true
        by (symmetry; apply andb_true_iff; split; [apply Z.leb_le | apply Z.ltb_lt]; lia).
      f_equal. lia.
    + rewrite mod_wrapped by lia.
      rewrite byte_at_memcpy by lia.
      replace ((0 <=? head + i - capacity)
               && (head + i - capacity <? 0 + (n - (capacity - head)))) with true
        by (symmetry; apply andb_true_iff; split; [apply Z.leb_le | apply Z.ltb_lt]; lia).
      f_equal. lia.
Qed.

(** ** The write sink *)

(** Decide the comparisons, minima and conversions of the goal by linear
    arithmetic over the hypotheses. *)
Ltac settle :=
  repeat first
    [ rewrite Z.geb_leb
    | rewrite Z.gtb_ltb
    | match goal with
      | |- context [to_size_t ?a] => rewrite (to_size_t_small a) by lia
      | |- context [to_uint64 ?a] => rewrite (to_uint64_small a) by lia
      | |- context [Z.min ?a ?b] =>
          first [rewrite (Z.min_l a b) by lia | rewrite (Z.min_r a b) by lia]
      | |- context [?a <? ?b] =>
          first [rewrite (proj2 (Z.ltb_lt a b)) by lia
                | rewrite (proj2 (Z.ltb_ge a b)) by lia]
      | |- context [?a <=? ?b] =>
          first [rewrite (proj2 (Z.leb_le a b)) by lia
                | rewrite (proj2 (Z.leb_gt a b)) by lia]
      | |- context [?a =? ?b] =>
          first [rewrite (proj2 (Z.eqb_eq a b)) by lia
                | rewrite (proj2 (Z.eqb_neq a b)) by lia]
      end ].

Lemma write_loop_step (fuel : nat) (buffersize tail : Z) (data buffer : list uint8_t)
    (head byteswritten cb : Z) :
  write_loop (S fuel) buffersize tail data buffer head byteswritten cb
  = if cb =? 0 then Some (buffer, head, byteswritten)
    else
      let chunk := if head <? tail then Z.min cb (tail - head)
                   else Z.min cb (to_size_t (buffersize - head)) in
      write_loop fuel buffersize tail data
        (memcpy buffer head data byteswritten chunk)
        (if to_size_t (head + chunk) >=? buffersize then 0 else to_size_t (head + chunk))
        (byteswritten + chunk) (cb - chunk).
Proof. reflexivity. Qed.

Lemma write_loop_done (fuel : nat) (buffersize tail : Z) (data buffer : list uint8_t)
    (head byteswritten : Z) :
  write_loop fuel buffersize tail data buffer head byteswritten 0
  = Some (buffer, head, byteswritten).
Proof. destruct fuel; reflexivity. Qed.

(** A loop that ends gives the same result on any larger fuel. *)
Lemma write_loop_more_fuel (fuel : nat) : forall buffersize tail data buffer head bw cb r,
  write_loop fuel buffersize tail data buffer head bw cb = Some r ->
  write_loop (S fuel) buffersize tail data buffer head bw cb = Some r.
Proof.
  induction fuel as [ | fuel IH]; intros buffersize tail data buffer head bw cb r H.
  - simpl in H. rewrite write_loop_step.
    destruct (cb =? 0); [exact H | discriminate H].
  - rewrite write_loop_step in H. rewrite write_loop_step.
    destruct (cb =? 0); [exact H | ].
    cbv zeta in *. apply IH. exact H.
Qed.

(** The loop ends only when it has written every byte it was given. *)
Lemma write_loop_writes_all (fuel : nat) :
  forall buffersize tail data buffer head bw cb buffer' head' bw',
  write_loop fuel buffersize tail data buffer head bw cb = Some (buffer', head', bw') ->
  bw' = bw + cb.
Proof.
  induction fuel as [ | fuel IH];
    intros buffersize tail data buffer head bw cb buffer' head' bw' H.
  - simpl in H. destruct (cb =? 0) eqn:E; [ | discriminate H].
    apply Z.eqb_eq in E. injection H as _ _ <-. lia.
  - rewrite write_loop_step in H.
    destruct (cb =? 0) eqn:E.
    + apply Z.eqb_eq in E. injection H as _ _ <-. lia.
    + cbv zeta in H. apply IH in H. lia.
Qed.

(** Whenever [curl_write] returns, it returns 0 for nothing offered, the
    pause code, or the whole byte count. *)
Lemma curl_write_returns_all_or_pause (data : option (list uint8_t))
    (size count n : Z) (s s' : livestream) :
  curl_write data size count s = Returns n s' ->
  (n = 0 /\ s' = s)
  \/ (n = CURL_WRITEFUNC_PAUSE /\ s' = set_paused true s)
  \/ n = to_size_t (size * count).
Proof.
  unfold curl_write. intros H.
  destruct data as [bytes | ]; [ | injection H as <- <-; left; split; reflexivity].
  destruct (to_size_t (size * count) =? 0);
    [injection H as <- <-; left; split; reflexivity | ].
  destruct (_ <? _); [injection H as <- <-; right; left; split; reflexivity | ].
  destruct (write_loop _ _ _ _ _ _ _ _) as [[[b h] w] | ] eqn:E; [ | discriminate].
  cbv zeta in H. injection H as <- _.
  apply write_loop_writes_all in E. right. right. lia.
Qed.

(** With room for the chunk, the loop stores it whole in at most two
    rounds and leaves the head [n] places further round the ring. *)
Lemma write_loop_stores (fuel : nat) (capacity head tail n : Z)
    (data buffer : list uint8_t) :
  0 < capacity <= SIZE_MAX ->
  0 <= head < capacity -> 0 <= tail <= capacity ->
  0 < n ->
  n <= (if head <? tail then tail - head else capacity - head + tail) ->
  write_loop (S (S fuel)) capacity tail data buffer head 0 n
  = Some (ring_put capacity buffer head data n, (head + n) mod capacity, n).
Proof.
  intros HC Hh Ht Hn Hroom. unfold ring_put.
  destruct (head <? tail) eqn:Eht.
  - apply Z.ltb_lt in Eht.
    rewrite write_loop_step. cbv zeta. settle.
    rewrite Z.sub_diag, write_loop_done.
    destruct (Z.eq_dec (head + n) capacity) as [E | E].
    + settle. rewrite E, Z.mod_same by lia. reflexivity.
    + settle. rewrite mod_below by lia. reflexivity.
  - apply Z.ltb_ge in Eht.
    rewrite write_loop_step. cbv zeta. rewrite (proj2 (Z.ltb_ge head tail)) by lia.
    destruct (Z_le_gt_dec n (capacity - head)) as [Hfit | Hsplit].
    + settle. rewrite Z.sub_diag, write_loop_done.
      destruct (Z.eq_dec (head + n) capacity) as [E | E].
      * settle. rewrite E, Z.mod_same by lia. reflexivity.
      * settle. rewrite mod_below by lia. reflexivity.
    + settle.
      rewrite write_loop_step. cbv zeta. settle.
      replace (n - (capacity - head) - (n - (capacity - head))) with 0 by lia.
      rewrite write_loop_done.
      rewrite mod_wrapped by lia.
      rewrite !Z.add_0_l.
      replace (capacity - head + (n - (capacity - head))) with n by lia.
      replace (head + n - capacity) with (n - (capacity - head)) by lia.
      reflexivity.
Qed.

Lemma curl_write_pauses (bytes : list uint8_t) (size count : Z) (s : livestream) :
  ring_ok s -> 0 <= WRITE_PADDING ->
  0 < size * count -> size * count + WRITE_PADDING <= SIZE_MAX ->
  available s < size * count + WRITE_PADDING ->
  curl_write (Some bytes) size count s
  = Returns CURL_WRITEFUNC_PAUSE (set_paused true s).
Proof.
  intros (HC & Hh & Ht & Hlen) Hpad Hn Hfit Hfull.
  unfold curl_write, available in *.
  set (n := size * count) in *.
  rewrite (to_size_t_small n) by lia.
  rewrite (proj2 (Z.eqb_neq n 0)) by lia.
  destruct (m_bufferhead s <? m_buffertail s) eqn:E.
  - settle. reflexivity.
  - apply Z.ltb_ge in E. settle. reflexivity.
Qed.

Lemma curl_write_stores (bytes : list uint8_t) (size count : Z) (s : livestream) :
  ring_ok s -> 0 <= WRITE_PADDING ->
  0 < size * count -> size * count + WRITE_PADDING <= SIZE_MAX ->
  size * count + WRITE_PADDING <= available s ->
  curl_write (Some bytes) size count s
  = Returns (size * count) (stored bytes (size * count) s).
Proof.
  intros (HC & Hh & Ht & Hlen) Hpad Hn Hfit Hroom.
  unfold curl_write.
  set (n := size * count) in *.
  rewrite (to_size_t_small n) by lia.
  rewrite (proj2 (Z.eqb_neq n 0)) by lia.
  assert (Hav : (if m_bufferhead s <? m_buffertail s
                 then m_buffertail s - m_bufferhead s
                 else to_size_t (to_size_t (m_buffersize s - m_bufferhead s) + m_buffertail s))
                = available s).
  { unfold available. destruct (m_bufferhead s <? m_buffertail s) eqn:E; [reflexivity | ].
    apply Z.ltb_ge in E. settle. reflexivity. }
  rewrite Hav. settle.
  replace (S (2 * Z.to_nat n))%nat with (S (S (2 * Z.to_nat n - 1)))%nat by lia.
  rewrite write_loop_stores by (unfold available in Hroom; lia || assumption).
  unfold stored. cbv zeta.
  destruct (Z.max_spec (m_length s) (to_uint64 (m_writepos s + n))) as [[Hlt ->] | [Hge ->]].
  - simpl. rewrite (proj2 (Z.gtb_lt _ _)) by lia. reflexivity.
  - simpl. destruct (to_uint64 (m_writepos s + n) >? m_length s) eqn:E.
    + apply Z.gtb_lt in E. replace (m_length s) with (to_uint64 (m_writepos s + n)) by lia.
      reflexivity.
    + reflexivity.
Qed.

(** C3: the write sink is all-or-nothing.  For a chunk of [n > 0] bytes: when
    the space computed from the indices is below [n + WRITE_PADDING] it sets
    [m_paused], returns the pause code and touches nothing else; otherwise it
    returns [n], the head is [n] places further round the ring, the [n] bytes
    lie in order from the old head on, and [writepos] has grown by [n]. *)
Theorem curl_write_all_or_nothing (bytes : list uint8_t) (size count : Z)
    (s : livestream) :
  ring_ok s -> 0 <= WRITE_PADDING ->
  0 < size * count <= Z.of_nat (List.length bytes) ->
  size * count + WRITE_PADDING <= SIZE_MAX ->
  (available s < size * count + WRITE_PADDING ->
     curl_write (Some bytes) size count s
     = Returns CURL_WRITEFUNC_PAUSE (set_paused true s))
  /\ (size * count + WRITE_PADDING <= available s ->
        exists s',
          curl_write (Some bytes) size count s = Returns (size * count) s'
          /\ s' = stored bytes (size * count) s
          /\ m_bufferhead s' = (m_bufferhead s + size * count) mod m_buffersize s
          /\ m_writepos s' = to_uint64 (m_writepos s + size * count)
          /\ m_length s' = Z.max (m_length s) (m_writepos s')
          /\ m_buffertail s' = m_buffertail s
          /\ List.length (m_buffer s') = List.length (m_buffer s)
          /\ forall i, 0 <= i < size * count ->
               byte_at (m_buffer s') ((m_bufferhead s + i) mod m_buffersize s)
               = byte_at bytes i).
Proof.
  intros Hring Hpad Hn Hfit. split.
  - intros Hfull. apply curl_write_pauses; (assumption || lia).
  - intros Hroom. exists (stored bytes (size * count) s).
    split; [apply curl_write_stores; (assumption || lia) | ].
    destruct Hring as (HC & Hh & Ht & Hlen).
    assert (Hcap : size * count <= m_buffersize s).
    { unfold available in Hroom.
      destruct (m_bufferhead s <? m_buffertail s) eqn:E;
        [apply Z.ltb_lt in E | apply Z.ltb_ge in E]; lia. }
    repeat split.
    + simpl. apply length_ring_put; lia.
    + intros i Hi. simpl. apply byte_at_ring_put; lia.
Qed.

(** ** The ring stays well-formed under the callbacks *)

Lemma strtoull_value_range (negative : bool) (v : Z) :
  0 <= v -> 0 <= strtoull_value negative v <= ULLONG_MAX.
Proof.
  intros Hv. unfold strtoull_value.
  destruct (v >? ULLONG_MAX) eqn:E; [unfold ULLONG_MAX; lia | ].
  rewrite Z.gtb_ltb in E. apply Z.ltb_ge in E.
  destruct negative; [apply to_uint64_range | lia].
Qed.

(** The header adapter leaves the instance alone or sets the three
    positions to one value. *)
Lemma curl_responseheaders_cases (data : string) (size count : Z) (s : livestream) :
  snd (curl_responseheaders data size count s) = s
  \/ exists v, snd (curl_responseheaders data size count s) = positioned v s.
Proof.
  unfold curl_responseheaders.
  destruct (to_size_t (size * count) =? 0); [left; reflexivity | ].
  destruct (_ && _); [ | left; reflexivity].
  destruct (sscanf data _) as [[ | [p | p | ] | p] [ | v [ | w l]]];
    try (left; reflexivity).
  right. exists v. reflexivity.
Qed.

Lemma curl_transfercontrol_cases (s : livestream) :
  curl_transfercontrol s = (-1, set_stop false s)
  \/ curl_transfercontrol s
     = (0, set_curl (curl_easy_pause_cont (m_curl s)) (set_paused false s))
  \/ curl_transfercontrol s = (0, s).
Proof.
  unfold curl_transfercontrol.
  destruct (m_stop s); [left; reflexivity | ].
  destruct (m_paused s); [right; left; reflexivity | right; right; reflexivity].
Qed.

(** What [curl_write] does with a chunk libcurl can hand over. *)
Lemma curl_write_cases (data : option (list uint8_t)) (size count : Z) (s : livestream) :
  ring_ok s -> 0 <= WRITE_PADDING -> chunk_ok (on_write data size count) ->
  curl_write data size count s = Returns 0 s
  \/ curl_write data size count s = Returns CURL_WRITEFUNC_PAUSE (set_paused true s)
  \/ exists bytes,
       data = Some bytes /\ 0 < size * count <= Z.of_nat (List.length bytes)
       /\ size * count + WRITE_PADDING <= available s
       /\ curl_write data size count s
          = Returns (size * count) (stored bytes (size * count) s).
Proof.
  intros Hring Hpad Hchunk.
  destruct data as [bytes | ]; [ | left; reflexivity].
  simpl in Hchunk. destruct Hchunk as [Hn Hfit].
  destruct (Z.eq_dec (size * count) 0) as [E0 | E0].
  - left. unfold curl_write. rewrite E0. reflexivity.
  - destruct (Z_lt_le_dec (available s) (size * count + WRITE_PADDING)) as [Hfull | Hroom].
    + right. left. apply curl_write_pauses; (assumption || lia).
    + right. right. exists bytes.
      repeat split; try lia. apply curl_write_stores; (assumption || lia).
Qed.

Lemma ring_ok_stored (bytes : list uint8_t) (n : Z) (s : livestream) :
  ring_ok s -> 0 <= WRITE_PADDING ->
  0 < n <= Z.of_nat (List.length bytes) -> n + WRITE_PADDING <= available s ->
  ring_ok (stored bytes n s).
Proof.
  intros (HC & Hh & Ht & Hlen) Hpad Hn Hroom.
  assert (Hcap : n <= m_buffersize s).
  { unfold available in Hroom.
    destruct (m_bufferhead s <? m_buffertail s) eqn:E;
      [apply Z.ltb_lt in E | apply Z.ltb_ge in E]; lia. }
  unfold ring_ok. simpl. repeat split; try lia.
  - apply Z.mod_pos_bound. lia.
  - apply Z.mod_pos_bound. lia.
  - rewrite length_ring_put by lia. exact Hlen.
Qed.

Lemma invoke_ring_ok (cb : callback) (s : livestream) :
  ring_ok s -> 0 <= WRITE_PADDING -> chunk_ok cb ->
  exists abort s', invoke cb s = Some (abort, s') /\ ring_ok s'.
Proof.
  intros Hring Hpad Hchunk. destruct cb as [data size count | data size count | ].
  - exists false, (snd (curl_responseheaders data size count s)).
    split; [reflexivity | ].
    destruct (curl_responseheaders_cases data size count s) as [-> | (v & ->)]; exact Hring.
  - unfold invoke.
    destruct (curl_write_cases data size count s Hring Hpad Hchunk)
      as [-> | [-> | (bytes & -> & Hn & Hroom & ->)]].
    + exists false, s. split; [reflexivity | exact Hring].
    + eexists false, _. split; [reflexivity | ].
      rewrite Z.eqb_refl. exact Hring.
    + eexists false, _. split; [reflexivity | ].
      assert (Hs : ring_ok (stored bytes (size * count) s))
        by (apply ring_ok_stored; assumption).
      destruct (size * count =? CURL_WRITEFUNC_PAUSE); exact Hs.
  - unfold invoke.
    destruct (curl_transfercontrol_cases s) as [-> | [-> | ->]];
      eexists _, _; (split; [reflexivity | exact Hring]).
Qed.

Lemma perform_steps_ring_ok (n : nat) (code : CURLcode) (text : string) :
  forall (cbs : list callback) (s : livestream),
  ring_ok s -> 0 <= WRITE_PADDING -> Forall chunk_ok cbs ->
  exists s', perform_steps n cbs code text s = Some s' /\ ring_ok s'.
Proof.
  induction n as [ | n IH]; intros cbs s Hring Hpad Hcbs; simpl.
  - exists s. split; [reflexivity | exact Hring].
  - destruct (m_worker s); try (exists s; split; [reflexivity | exact Hring]).
    destruct cbs as [ | cb rest].
    + eexists. split; [reflexivity | exact Hring].
    + inversion Hcbs as [ | ? ? Hcb Hrest]; subst.
      destruct (invoke_ring_ok cb s Hring Hpad Hcb) as (abort & s' & -> & Hring').
      destruct abort.
      * eexists. split; [reflexivity | exact Hring'].
      * apply IH; assumption.
Qed.

(** ** The reader *)

Lemma read_loop_step (fuel : nat) (buffersize head : Z) (ring buffer : list uint8_t)
    (tail bytesread count : Z) :
  read_loop (S fuel) buffersize head ring buffer tail bytesread count
  = if count =? 0 then Some (buffer, tail, bytesread)
    else
      let chunk := if tail <? head then Z.min count (head - tail)
                   else Z.min count (to_size_t (buffersize - tail)) in
      let tail' := if to_size_t (tail + chunk) >=? buffersize then 0
                   else to_size_t (tail + chunk) in
      if tail' =? head
      then Some (memcpy buffer bytesread ring tail chunk, tail', bytesread + chunk)
      else read_loop fuel buffersize head ring
             (memcpy buffer bytesread ring tail chunk) tail'
             (bytesread + chunk) (count - chunk).
Proof. reflexivity. Qed.

Lemma read_loop_done (fuel : nat) (buffersize head : Z) (ring buffer : list uint8_t)
    (tail bytesread : Z) :
  read_loop fuel buffersize head ring buffer tail bytesread 0
  = Some (buffer, tail, bytesread).
Proof. destruct fuel; reflexivity. Qed.

Ltac memcpy_eq :=
  match goal with
  | |- ?x = ?x => reflexivity
  | |- memcpy _ _ _ _ _ = memcpy _ _ _ _ _ =>
      apply f_equal5; [memcpy_eq | lia | reflexivity | lia | lia]
  end.

Ltac result_eq :=
  apply f_equal; apply f_equal2; [apply f_equal2; [memcpy_eq | lia] | lia].

(** With data in the ring, the loop takes [min count buffered] bytes in at
    most two rounds and leaves the tail that many places further. *)
Lemma read_loop_takes (fuel : nat) (capacity head tail count : Z)
    (ring dest : list uint8_t) :
  0 < capacity <= SIZE_MAX ->
  0 <= head < capacity -> 0 <= tail <= capacity -> head <> tail ->
  0 < count <= capacity ->
  read_loop (S (S fuel)) capacity head ring dest tail 0 count
  = Some (ring_get capacity ring tail dest
            (Z.min count (if tail <=? head then head - tail
                          else capacity - tail + head)),
          (tail + Z.min count (if tail <=? head then head - tail
                               else capacity - tail + head)) mod capacity,
          Z.min count (if tail <=? head then head - tail
                       else capacity - tail + head)).
Proof.
  intros HC Hh Ht Hne Hcount. unfold ring_get.
  destruct (Z_lt_le_dec tail head) as [Hlt | Hge].
  - rewrite (proj2 (Z.leb_le tail head)) by lia.
    rewrite read_loop_step. cbv zeta.
    destruct (Z_le_gt_dec count (head - tail)) as [Hall | Hpart].
    + settle. rewrite mod_below by lia.
      destruct (tail + count =? head); [result_eq | ].
      rewrite Z.sub_diag, read_loop_done. result_eq.
    + settle. rewrite mod_below by lia.
      result_eq.
  - rewrite (proj2 (Z.leb_gt tail head)) by lia.
    rewrite read_loop_step. cbv zeta.
    destruct (Z_lt_le_dec count (capacity - tail)) as [Hshort | Hlong].
    + settle. rewrite mod_below by lia.
      rewrite Z.sub_diag, read_loop_done. result_eq.
    + settle.
      destruct (Z.eq_dec head 0) as [Ez | Enz].
      * settle. rewrite mod_wrapped by lia. result_eq.
      * settle.
        rewrite read_loop_step. cbv zeta.
        destruct (Z.eq_dec (count - (capacity - tail)) 0) as [Eall | Emore].
        -- settle. rewrite mod_wrapped by lia. result_eq.
        -- destruct (Z_le_gt_dec (count - (capacity - tail)) head) as [Hfits | Hover].
           ++ settle. rewrite mod_wrapped by lia.
              destruct (0 + (count - (capacity - tail)) =? head); [result_eq | ].
              rewrite Z.sub_diag, read_loop_done. result_eq.
           ++ settle. rewrite mod_wrapped by lia.
              result_eq.
Qed.

Lemma memcpy_front_length (dst src : list uint8_t) (s n : Z) :
  0 <= s -> 0 <= n -> s + n <= Z.of_nat (List.length src) ->
  n <= Z.of_nat (List.length (memcpy dst 0 src s n)).
Proof.
  intros Hs Hn Hsrc. unfold memcpy.
  rewrite !length_app, !length_firstn, !length_skipn. simpl. lia.
Qed.

Lemma byte_at_ring_get (capacity tail m : Z) (ring dest : list uint8_t) :
  0 < capacity -> 0 <= tail <= capacity -> 0 <= m <= capacity ->
  Z.of_nat (List.length ring) = capacity ->
  (forall i, 0 <= i < m ->
     byte_at (ring_get capacity ring tail dest m) i
     = byte_at ring ((tail + i) mod capacity))
  /\ (forall j, m <= j ->
        byte_at (ring_get capacity ring tail dest m) j = byte_at dest j).
Proof.
  intros HC Ht Hm Hlen. unfold ring_get.
  destruct (tail + m <=? capacity) eqn:E.
  - apply Z.leb_le in E. split.
    + intros i Hi. rewrite byte_at_memcpy by lia.
      replace ((0 <=? i) && (i <? 0 + m)) with true
        by (symmetry; apply andb_true_iff; split; [apply Z.leb_le | apply Z.ltb_lt]; lia).
      rewrite mod_below by lia. f_equal. lia.
    + intros j Hj. rewrite byte_at_memcpy by lia.
      replace ((0 <=? j) && (j <? 0 + m)) with false
        by (symmetry; apply andb_false_iff; right; apply Z.ltb_ge; lia).
      reflexivity.
  - apply Z.leb_gt in E.
    pose proof (memcpy_front_length dest ring tail (capacity - tail)
                  ltac:(lia) ltac:(lia) ltac:(lia)) as Hfront.
    split.
    + intros i Hi. rewrite byte_at_memcpy by lia.
      destruct (Z_lt_le_dec i (capacity - tail)) as [Hlow | Hhigh].
      * replace ((capacity - tail <=? i)
                 && (i <? capacity - tail + (m - (capacity - tail)))) with false
          by (symmetry; apply andb_false_iff; left; apply Z.leb_gt; lia).
        rewrite byte_at_memcpy by lia.
        replace ((0 <=? i) && (i <? 0 + (capacity - tail))) with true
          by (symmetry; apply andb_true_iff; split; [apply Z.leb_le | apply Z.ltb_lt]; lia).
        rewrite mod_below by lia. f_equal. lia.
      * replace ((capacity - tail <=? i)
                 && (i <? capacity - tail + (m - (capacity - tail)))) with true
          by (symmetry; apply andb_true_iff; split; [apply Z.leb_le | apply Z.ltb_lt]; lia).
        rewrite mod_wrapped by lia. f_equal. lia.
    + intros j Hj. rewrite byte_at_memcpy by lia.
      replace ((capacity - tail <=? j)
               && (j <? capacity - tail + (m - (capacity - tail)))) with false
        by (symmetry; apply andb_false_iff; right; apply Z.ltb_ge; lia).
      rewrite byte_at_memcpy by lia.
      replace ((0 <=? j) && (j <? 0 + (capacity - tail))) with false
        by (symmetry; apply andb_false_iff; right; apply Z.ltb_ge; lia).
      reflexivity.
Qed.

(** ** What the worker leaves alone *)

Ltac frame :=
  unfold callback_frame, worker_frame; simpl;
  repeat match goal with |- _ /\ _ => split end;
  try reflexivity; try lia; auto.

Lemma worker_frame_refl (s : livestream) : worker_frame s s.
Proof. frame. Qed.

Lemma worker_frame_trans (s1 s2 s3 : livestream) :
  worker_frame s1 s2 -> worker_frame s2 s3 -> worker_frame s1 s3.
Proof.
  unfold worker_frame. intros (A1 & A2 & A3 & A4 & A5) (B1 & B2 & B3 & B4 & B5).
  repeat match goal with |- _ /\ _ => split end; try congruence; try lia; auto.
Qed.

Lemma curl_write_frame (data : option (list uint8_t)) (size count n : Z)
    (s s' : livestream) :
  curl_write data size count s = Returns n s' ->
  callback_frame s s' /\ m_startpos s' = m_startpos s /\ m_readpos s' = m_readpos s
  /\ m_stop s' = m_stop s /\ m_curl s' = m_curl s.
Proof.
  unfold curl_write. intros H.
  destruct data as [bytes | ]; [ | injection H as <- <-; frame].
  destruct (to_size_t (size * count) =? 0); [injection H as <- <-; frame | ].
  destruct (_ <? _); [injection H as <- <-; frame | ].
  destruct (write_loop _ _ _ _ _ _ _ _) as [[[b h] w] | ]; [ | discriminate].
  cbv zeta in H. injection H as <- <-.
  destruct (_ >? _) eqn:E; [ | frame].
  simpl in E. apply Z.gtb_lt in E. frame.
Qed.

Lemma invoke_frame (cb : callback) (abort : bool) (s s' : livestream) :
  invoke cb s = Some (abort, s') -> callback_frame s s'.
Proof.
  destruct cb as [data size count | data size count | ]; simpl; intros H.
  - injection H as <- <-.
    destruct (curl_responseheaders_cases data size count s) as [-> | (v & ->)]; frame.
  - destruct (curl_write data size count s) as [n s1 | | ] eqn:E; try discriminate.
    injection H as <- <-.
    destruct (curl_write_frame _ _ _ _ _ _ E) as (Hf & _).
    destruct (n =? CURL_WRITEFUNC_PAUSE); exact Hf.
  - destruct (curl_transfercontrol_cases s) as [E | [E | E]];
      rewrite E in H; injection H as <- <-; frame.
Qed.

Lemma transfer_func_leave_frame (code : CURLcode) (text : string) (s : livestream) :
  worker_frame s (transfer_func_leave code text s).
Proof. frame. Qed.

Lemma perform_steps_frame (n : nat) (code : CURLcode) (text : string) :
  forall (cbs : list callback) (s s' : livestream),
  perform_steps n cbs code text s = Some s' -> worker_frame s s'.
Proof.
  induction n as [ | n IH]; intros cbs s s' H; simpl in H.
  - injection H as <-. apply worker_frame_refl.
  - destruct (m_worker s); try (injection H as <-; apply worker_frame_refl).
    destruct cbs as [ | cb rest].
    + injection H as <-. apply transfer_func_leave_frame.
    + destruct (invoke cb s) as [[[] s1] | ] eqn:E; try discriminate.
      * injection H as <-. apply invoke_frame in E. destruct E as (Hf & _).
        eapply worker_frame_trans; [exact Hf | apply transfer_func_leave_frame].
      * apply invoke_frame in E. destruct E as (Hf & _).
        eapply worker_frame_trans; [exact Hf | eapply IH; exact H].
Qed.

Lemma wait_for_data_ring_ok (t : transfer) (arrivals : nat) (s : livestream) :
  ring_ok s -> 0 <= WRITE_PADDING -> Forall chunk_ok (callbacks t) ->
  exists s1, wait_for_data t arrivals s = Some s1 /\ ring_ok s1
             /\ m_buffersize s1 = m_buffersize s.
Proof.
  intros Hring Hpad Hcbs. unfold wait_for_data.
  destruct (negb (m_bufferhead s =? m_buffertail s)).
  - exists s. repeat split; try reflexivity; apply Hring.
  - destruct (perform_steps_ring_ok arrivals (result t) (errortext t)
                (callbacks t) s Hring Hpad Hcbs) as (s1 & H1 & Hring1).
    exists s1. split; [exact H1 | ]. split; [exact Hring1 | ].
    apply perform_steps_frame in H1. apply H1.
Qed.

(** [read] on a ring that holds data: no wait, and [min count buffered]
    bytes leave the ring. *)
Lemma read_with_data (dest : list uint8_t) (count : Z) (t : transfer) (arrivals : nat)
    (s : livestream) :
  ring_ok s -> m_bufferhead s <> m_buffertail s -> 0 < count <= m_buffersize s ->
  read (Some dest) count t arrivals s
  = Returns (Z.min count (buffered s),
             ring_get (m_buffersize s) (m_buffer s) (m_buffertail s) dest
                      (Z.min count (buffered s)))
            (consumed (Z.min count (buffered s)) s).
Proof.
  intros (HC & Hh & Ht & Hlen) Hdata Hcount. unfold read, wait_for_data.
  rewrite (proj2 (Z.eqb_neq (m_bufferhead s) (m_buffertail s))) by exact Hdata.
  cbn [negb]. settle.
  replace (S (2 * Z.to_nat count))%nat with (S (S (2 * Z.to_nat count - 1)))%nat by lia.
  rewrite read_loop_takes by lia.
  reflexivity.
Qed.

(** A [read] that has to wait is a [read] of what the wait leaves. *)
Lemma read_waits (dest : list uint8_t) (count : Z) (t : transfer) (arrivals : nat)
    (s s1 : livestream) :
  0 < count <= m_buffersize s ->
  wait_for_data t arrivals s = Some s1 -> m_buffersize s1 = m_buffersize s ->
  read (Some dest) count t arrivals s
  = if m_bufferhead s1 =? m_buffertail s1 then Returns (0, dest) s1
    else read (Some dest) count t 0 s1.
Proof.
  intros Hcount Hwait Hsize. unfold read. rewrite Hwait. settle.
  destruct (m_bufferhead s1 =? m_buffertail s1) eqn:E; [reflexivity | ].
  unfold wait_for_data. rewrite E. cbn [negb]. rewrite E. reflexivity.
Qed.

Lemma perform_steps_not_running (code : CURLcode) (text : string) (n : nat)
    (cbs : list callback) (s : livestream) :
  m_worker s <> Running -> perform_steps n cbs code text s = Some s.
Proof.
  intros H. destruct n as [ | n]; [reflexivity | ]. simpl.
  destruct (m_worker s); [reflexivity | contradiction | reflexivity].
Qed.

(** A chunk stored in a ring that held nothing is what the ring holds. *)
Lemma buffered_stored_empty (bytes : list uint8_t) (n : Z) (s : livestream) :
  ring_ok s -> m_bufferhead s = m_buffertail s -> 0 < n < m_buffersize s ->
  buffered (stored bytes n s) = n
  /\ m_bufferhead (stored bytes n s) <> m_buffertail (stored bytes n s).
Proof.
  intros (HC & Hh & Ht & Hlen) Hempty Hn. unfold buffered, stored. simpl.
  rewrite <- Hempty.
  destruct (Z_lt_le_dec (m_bufferhead s + n) (m_buffersize s)) as [Hflat | Hwrap].
  - rewrite mod_below by lia. settle. lia.
  - rewrite mod_wrapped by lia. settle. lia.
Qed.

(** C5: [read] throws [invalid_argument] for a null buffer and for a count
    above the capacity, and returns 0 for a count of 0.  Otherwise it waits
    only when the ring holds nothing: with data in the ring the instance it
    reads is the one it was called on, and else it is the instance [s1] the
    worker's steps during the wait leave.  When the ring of [s1] still holds
    nothing, [read] returns 0 and throws nothing; so it does when the worker
    takes no step in time.  Else it copies [min count buffered] bytes in ring
    order from the tail on, leaves the rest of the destination alone, moves
    the tail and [readpos] by that number and returns it; a chunk the worker
    stores during the wait is what the reader gets. *)
Theorem read_copies_buffered_bytes (dest : list uint8_t) (count : Z)
    (t : transfer) (arrivals : nat) (s : livestream) :
  ring_ok s -> 0 <= WRITE_PADDING -> Forall chunk_ok (callbacks t) ->
  read None count t arrivals s = Throws (invalid_argument "buffer") s
  /\ (m_buffersize s < count ->
        read (Some dest) count t arrivals s = Throws (invalid_argument "count") s)
  /\ read (Some dest) 0 t arrivals s = Returns (0, dest) s
  /\ (0 < count <= m_buffersize s ->
        exists s1,
          wait_for_data t arrivals s = Some s1
          /\ (m_bufferhead s <> m_buffertail s -> s1 = s)
          /\ (m_bufferhead s = m_buffertail s ->
                perform_steps arrivals (callbacks t) (result t) (errortext t) s = Some s1)
          /\ (m_bufferhead s1 = m_buffertail s1 ->
                read (Some dest) count t arrivals s = Returns (0, dest) s1)
          /\ (m_bufferhead s1 <> m_buffertail s1 ->
                exists dest',
                  read (Some dest) count t arrivals s
                  = Returns (Z.min count (buffered s1), dest')
                            (consumed (Z.min count (buffered s1)) s1)
                  /\ (forall i, 0 <= i < Z.min count (buffered s1) ->
                        byte_at dest' i
                        = byte_at (m_buffer s1)
                                  ((m_buffertail s1 + i) mod m_buffersize s1))
                  /\ (forall j, Z.min count (buffered s1) <= j ->
                        byte_at dest' j = byte_at dest j)))
  /\ (0 < count <= m_buffersize s -> m_bufferhead s = m_buffertail s ->
      arrivals = 0%nat \/ m_worker s <> Running ->
      read (Some dest) count t arrivals s = Returns (0, dest) s)
  /\ (forall bytes size n more,
        0 < count <= m_buffersize s -> m_bufferhead s = m_buffertail s ->
        m_worker s = Running -> arrivals = 1%nat ->
        callbacks t = on_write (Some bytes) size n :: more ->
        0 < size * n <= Z.of_nat (List.length bytes) ->
        size * n + WRITE_PADDING <= m_buffersize s -> size * n < m_buffersize s ->
        exists dest' s',
          read (Some dest) count t arrivals s
          = Returns (Z.min count (size * n), dest') s'
          /\ (forall i, 0 <= i < Z.min count (size * n) ->
                byte_at dest' i = byte_at bytes i)
          /\ (forall j, Z.min count (size * n) <= j -> byte_at dest' j = byte_at dest j)
          /\ m_readpos s' = to_uint64 (m_readpos s + Z.min count (size * n))
          /\ m_writepos s' = to_uint64 (m_writepos s + size * n)
          /\ m_buffertail s'
             = (m_buffertail s + Z.min count (size * n)) mod m_buffersize s
          /\ m_bufferhead s' = (m_bufferhead s + size * n) mod m_buffersize s).
Proof.
  intros Hring Hpad Hcbs.
  pose proof Hring as (HC & Hhd & Htl & Hlen).
  split; [reflexivity | ]. split; [ | split; [ | split; [ | split]]].
  - intros Hbig. unfold read. settle. reflexivity.
  - unfold read. settle. reflexivity.
  - intros Hcount.
    destruct (wait_for_data_ring_ok t arrivals s Hring Hpad Hcbs)
      as (s1 & Hwait & Hring1 & Hsize).
    exists s1. split; [exact Hwait | ].
    split.
    { intros Hdata. unfold wait_for_data in Hwait.
      rewrite (proj2 (Z.eqb_neq _ _) Hdata) in Hwait. injection Hwait as <-. reflexivity. }
    split.
    { intros Hempty. unfold wait_for_data in Hwait.
      rewrite (proj2 (Z.eqb_eq _ _) Hempty) in Hwait. exact Hwait. }
    rewrite (read_waits dest count t arrivals s s1 Hcount Hwait Hsize).
    split.
    + intros Hempty. rewrite (proj2 (Z.eqb_eq _ _) Hempty). reflexivity.
    + intros Hdata. rewrite (proj2 (Z.eqb_neq _ _) Hdata).
      rewrite (read_with_data dest count t 0 s1 Hring1 Hdata) by lia.
      eexists. split; [reflexivity | ].
      destruct Hring1 as (HC1 & Hh1 & Ht1 & Hlen1).
      apply byte_at_ring_get; try lia.
      split; [apply Z.min_glb; [lia | ] | apply Z.le_trans with count; [apply Z.le_min_l | lia]].
      unfold buffered. destruct (m_buffertail s1 <=? m_bufferhead s1) eqn:E;
        [apply Z.leb_le in E | apply Z.leb_gt in E]; lia.
  - intros Hcount Hempty Hnone.
    assert (Hwait : wait_for_data t arrivals s = Some s).
    { unfold wait_for_data. rewrite (proj2 (Z.eqb_eq _ _) Hempty). cbn [negb].
      destruct Hnone as [-> | Hidle]; [reflexivity | ].
      apply perform_steps_not_running. exact Hidle. }
    rewrite (read_waits dest count t arrivals s s Hcount Hwait eq_refl).
    rewrite (proj2 (Z.eqb_eq _ _) Hempty). reflexivity.
  - intros bytes size n more Hcount Hempty Hrun -> Ht Hn Hroom Hless.
    assert (Hav : available s = m_buffersize s).
    { unfold available. rewrite Hempty, Z.ltb_irrefl. lia. }
    assert (Hwrite : curl_write (Some bytes) size n s
                     = Returns (size * n) (stored bytes (size * n) s)).
    { apply curl_write_stores; try assumption; unfold SIZE_MAX in *; lia. }
    set (s1 := if size * n =? CURL_WRITEFUNC_PAUSE
               then set_curl (mark_recv_paused (m_curl (stored bytes (size * n) s)))
                             (stored bytes (size * n) s)
               else stored bytes (size * n) s).
    assert (Hwait : wait_for_data t 1 s = Some s1).
    { unfold wait_for_data. rewrite (proj2 (Z.eqb_eq _ _) Hempty). cbn [negb].
      rewrite Ht. cbn [perform_steps]. rewrite Hrun. cbn [invoke]. rewrite Hwrite.
      reflexivity. }
    destruct (buffered_stored_empty bytes (size * n) s Hring Hempty ltac:(lia))
      as (Hb & Hne).
    assert (Hs1 : ring_ok s1 /\ m_buffersize s1 = m_buffersize s
                  /\ buffered s1 = size * n
                  /\ m_bufferhead s1 <> m_buffertail s1
                  /\ m_buffer s1 = ring_put (m_buffersize s) (m_buffer s) (m_bufferhead s)
                                            bytes (size * n)
                  /\ m_buffertail s1 = m_buffertail s
                  /\ m_readpos s1 = m_readpos s
                  /\ m_writepos s1 = to_uint64 (m_writepos s + size * n)
                  /\ m_bufferhead s1 = (m_bufferhead s + size * n) mod m_buffersize s).
    { assert (Hr : ring_ok (stored bytes (size * n) s))
        by (apply ring_ok_stored; (assumption || lia)).
      unfold s1. destruct (size * n =? CURL_WRITEFUNC_PAUSE);
        (split; [exact Hr | ]; split; [reflexivity | ]; split; [exact Hb | ];
         split; [exact Hne | ]; repeat split). }
    destruct Hs1 as (Hring1 & Hsize & Hb1 & Hne1 & Hbuf1 & Htl1 & Hrd1 & Hwr1 & Hhd1).
    rewrite (read_waits dest count t 1 s s1 Hcount Hwait Hsize).
    rewrite (proj2 (Z.eqb_neq _ _) Hne1).
    rewrite (read_with_data dest count t 0 s1 Hring1 Hne1) by lia.
    rewrite Hb1.
    eexists. eexists. split; [reflexivity | ].
    pose proof Hring1 as (HC1 & _ & Ht1 & Hl1).
    destruct (byte_at_ring_get (m_buffersize s1) (m_buffertail s1)
                (Z.min count (size * n)) (m_buffer s1) dest) as (Hin & Hrest);
      try assumption; try lia.
    split; [ | split; [exact Hrest | ]].
    + intros i Hi. rewrite Hin by exact Hi.
      rewrite Hbuf1, Htl1, Hsize, <- Hempty. apply byte_at_ring_put; lia.
    + simpl. rewrite Hrd1, Hwr1, Htl1, Hhd1, Hsize. repeat split.
Qed.

(** ** seek *)

(** The in-buffer branch of [seek], lines 364-382. *)
Lemma seek_in_buffer (position : Z) (env : restart) (s : livestream) :
  regs_ok s ->
  0 <= m_buffersize s <= SIZE_MAX ->
  0 <= m_bufferhead s <= m_buffersize s ->
  joinable (m_worker s) = true ->
  position <> m_readpos s ->
  min_buffered s <= position <= m_writepos s ->
  seek position env s
  = Returns position (set_readpos position (set_buffertail (sought_tail position s) s)).
Proof.
  intros (Hst & Hrd & Hwr) HC Hh Hjoin Hne Hin.
  unfold seek, sought_tail, min_buffered in *. rewrite Hjoin.
  rewrite (proj2 (Z.eqb_neq position (m_readpos s))) by exact Hne.
  cbn [negb]. cbv zeta.
  destruct (Z_lt_le_dec (m_writepos s) (m_startpos s)) as [Hback | Hfwd].
  - exfalso. revert Hin. settle. lia.
  - destruct (Z_le_gt_dec (m_writepos s - m_startpos s) (m_buffersize s)) as [Hflat | Hwrapped].
    + revert Hin. settle. intros Hin. settle. cbn [andb]. settle. reflexivity.
    + revert Hin. settle. intros Hin. settle. cbn [andb].
      destruct (Z_le_gt_dec (m_buffersize s - m_bufferhead s)
                            (position - (m_writepos s - m_buffersize s))) as [Hfold | Hflat'].
      * settle. reflexivity.
      * settle. reflexivity.
Qed.

(** C2: with an active worker, a target other than [readpos] and inside
    [min_buffered .. writepos], [seek] sets the tail to [target - startpos]
    while the ring has not wrapped and to [head + delta], folded at the
    capacity, once it has; it sets [readpos] to the target and returns it.
    Nothing else changes: no stop signal, no join or restart, the session
    untouched, whatever the transport would have answered. *)
Theorem seek_inside_buffer_moves_tail (position : Z) (env : restart) (s : livestream) :
  regs_ok s ->
  0 <= m_buffersize s <= SIZE_MAX ->
  0 <= m_bufferhead s <= m_buffersize s ->
  joinable (m_worker s) = true ->
  position <> m_readpos s ->
  min_buffered s <= position <= m_writepos s ->
  exists s',
    seek position env s = Returns position s'
    /\ s' = set_readpos position (set_buffertail (sought_tail position s) s)
    /\ m_buffertail s' = sought_tail position s
    /\ m_readpos s' = position
    /\ m_stop s' = m_stop s
    /\ m_worker s' = m_worker s
    /\ m_curl s' = m_curl s.
Proof.
  intros Hregs HC Hh Hjoin Hne Hin.
  exists (set_readpos position (set_buffertail (sought_tail position s) s)).
  split; [apply seek_in_buffer; assumption | ].
  repeat split.
Qed.

(** An in-buffer seek to the oldest byte of a wrapped ring leaves the tail on
    the head while a whole capacity of bytes is unread. *)
Lemma seek_to_oldest_byte_of_wrapped_ring (env : restart) (s : livestream) :
  regs_ok s ->
  0 < m_buffersize s <= SIZE_MAX ->
  0 <= m_bufferhead s < m_buffersize s ->
  joinable (m_worker s) = true ->
  m_buffersize s < m_writepos s - m_startpos s ->
  m_readpos s <> m_writepos s - m_buffersize s ->
  exists s',
    seek (m_writepos s - m_buffersize s) env s
    = Returns (m_writepos s - m_buffersize s) s'
    /\ m_buffertail s' = m_bufferhead s'
    /\ m_writepos s' - m_readpos s' = m_buffersize s'.
Proof.
  intros Hregs HC Hh Hjoin Hwrapped Hne.
  eexists. split.
  - apply seek_in_buffer; try assumption; try lia.
    unfold min_buffered. settle. lia.
  - simpl. unfold sought_tail, min_buffered. settle. cbv zeta. settle. split; lia.
Qed.

(** C10: [seek] compares the target with [readpos] before it looks at the
    worker: on an instance without a worker a seek to [readpos] returns it,
    and any other target throws the not-running exception. *)
Theorem seek_compares_position_before_worker (position : Z) (env : restart)
    (s : livestream) :
  joinable (m_worker s) = false ->
  seek position env s
  = if position =? m_readpos s then Returns position s
    else Throws (string_exception ["seek"; ": cannot seek an inactive data transfer"]) s.
Proof.
  intros Hidle. unfold seek. rewrite Hidle. reflexivity.
Qed.

(** ** stop *)

(** A running worker that takes one step more than it has callbacks has
    returned. *)
Lemma perform_steps_returns (code : CURLcode) (text : string) :
  forall (cbs : list callback) (n : nat) (s s' : livestream),
  (List.length cbs < n)%nat ->
  perform_steps n cbs code text s = Some s' ->
  m_worker s = Running -> m_worker s' = Returned.
Proof.
  induction cbs as [ | cb rest IH]; intros n s s' Hn H Hrun;
    (destruct n as [ | n]; [simpl in Hn; lia | ]); simpl in H; rewrite Hrun in H.
  - injection H as <-. reflexivity.
  - destruct (invoke cb s) as [[[] s1] | ] eqn:E; try discriminate.
    + injection H as <-. reflexivity.
    + apply (IH n s1 s'); [simpl in Hn; lia | exact H | ].
      apply invoke_frame in E. destruct E as (_ & -> & _). exact Hrun.
Qed.

Lemma join_not_joinable (t : transfer) (s s1 : livestream) :
  join t s = Some s1 -> m_worker s1 = NotAThread.
Proof.
  unfold join. destruct (perform_steps _ _ _ _ _); [ | discriminate].
  intros H. injection H as <-. reflexivity.
Qed.

Lemma join_returns (t : transfer) (s : livestream) :
  ring_ok s -> 0 <= WRITE_PADDING -> Forall chunk_ok (callbacks t) ->
  exists s1, join t s = Some s1 /\ ring_ok s1 /\ m_worker s1 = NotAThread.
Proof.
  intros Hring Hpad Hcbs. unfold join.
  destruct (perform_steps_ring_ok (S (List.length (callbacks t))) (result t) (errortext t)
              (callbacks t) s Hring Hpad Hcbs) as (s' & -> & Hring').
  eexists. split; [reflexivity | ]. split; [exact Hring' | reflexivity].
Qed.

(** C6: [stop] does not throw.  Without a joinable worker it returns 0 and
    leaves the instance as it is.  With one it raises the stop signal, joins
    the worker, and returns the [readpos] found then; it leaves the positions,
    the flags and both indices cleared, [m_length] at 0 and no session. *)
Theorem stop_never_fails (t : transfer) (s : livestream) :
  ring_ok s -> 0 <= WRITE_PADDING -> Forall chunk_ok (callbacks t) ->
  (joinable (m_worker s) = false -> stop t s = Returns 0 s)
  /\ (joinable (m_worker s) = true ->
        exists s1,
          join t (set_stop true s) = Some s1
          /\ stop t s = Returns (m_readpos s1) (set_curl None (set_length 0 (cleared s1))))
  /\ (forall e s', stop t s <> Throws e s')
  /\ stop t s <> Diverges.
Proof.
  intros Hring Hpad Hcbs.
  assert (Hidle : joinable (m_worker s) = false -> stop t s = Returns 0 s).
  { intros H. unfold stop. rewrite H. reflexivity. }
  assert (Hactive : joinable (m_worker s) = true ->
            exists s1,
              join t (set_stop true s) = Some s1
              /\ stop t s = Returns (m_readpos s1) (set_curl None (set_length 0 (cleared s1)))).
  { intros H.
    destruct (join_returns t (set_stop true s)) as (s1 & Hjoin & _ & Hworker);
      [exact Hring | exact Hpad | exact Hcbs | ].
    exists s1. split; [exact Hjoin | ].
    unfold stop. rewrite H. cbn [negb]. cbv zeta. rewrite Hjoin.
    unfold reset_stream_state. rewrite Hworker. reflexivity. }
  split; [exact Hidle | ]. split; [exact Hactive | ].
  destruct (joinable (m_worker s)) eqn:E.
  - destruct (Hactive eq_refl) as (s1 & _ & ->). split; [intros e s' | ]; discriminate.
  - rewrite (Hidle eq_refl). split; [intros e s' | ]; discriminate.
Qed.

(** ** start *)

(** A callback sets [m_started] exactly when it is a write that finds room
    for its chunk. *)
Lemma invoke_started (cb : callback) (abort : bool) (s s' : livestream) :
  ring_ok s -> 0 <= WRITE_PADDING -> chunk_ok cb ->
  invoke cb s = Some (abort, s') -> m_started s = false ->
  m_started s' = accepts cb s /\ (abort = true -> accepts cb s = false).
Proof.
  intros Hring Hpad Hchunk H Hns.
  destruct cb as [data size count | data size count | ]; simpl in H.
  - injection H as <- <-. split; [ | discriminate].
    destruct (curl_responseheaders_cases data size count s) as [-> | (v & ->)]; exact Hns.
  - destruct data as [bytes | ].
    + simpl in Hchunk. destruct Hchunk as [Hn Hfit].
      destruct (Z.eq_dec (size * count) 0) as [E0 | E0].
      * unfold curl_write in H. rewrite E0 in H. simpl in H. injection H as <- <-.
        simpl. rewrite E0. simpl. split; [exact Hns | discriminate].
      * destruct (Z_lt_le_dec (available s) (size * count + WRITE_PADDING)) as [Hfull | Hroom].
        -- rewrite curl_write_pauses in H by (assumption || lia).
           rewrite Z.eqb_refl in H. injection H as <- <-. unfold accepts.
           rewrite (proj2 (Z.ltb_lt (available s) (size * count + WRITE_PADDING))) by lia.
           rewrite andb_false_r. simpl.
           split; [exact Hns | discriminate].
        -- rewrite curl_write_stores in H by (assumption || lia).
           injection H as <- <-. unfold accepts.
           rewrite (proj2 (Z.eqb_neq (size * count) 0)) by lia.
           rewrite (proj2 (Z.ltb_ge (available s) (size * count + WRITE_PADDING))) by lia.
           split; [ | discriminate].
           destruct (size * count =? CURL_WRITEFUNC_PAUSE); reflexivity.
    + simpl in H. injection H as <- <-. split; [exact Hns | discriminate].
  - destruct (curl_transfercontrol_cases s) as [E | [E | E]];
      rewrite E in H; injection H as <- <-; simpl; split; auto.
Qed.

(** Where the worker stands when [m_started] has become true: it has
    returned without a write that stored data, or it is inside the transfer,
    just behind the first such write. *)
Lemma until_started_spec (code : CURLcode) (text : string) :
  forall (cbs : list callback) (s : livestream),
  ring_ok s -> 0 <= WRITE_PADDING -> Forall chunk_ok cbs ->
  m_started s = false -> m_worker s = Running ->
  exists rest s1,
    until_started cbs code text s = Some (rest, s1)
    /\ ring_ok s1 /\ worker_frame s s1 /\ Forall chunk_ok rest
    /\ ((data_produced cbs s = false /\ rest = [] /\ m_worker s1 = Returned
         /\ m_curlresult s1 = transfer_result cbs code s
         /\ m_curlerr s1 = transfer_errortext cbs text s)
        \/ (data_produced cbs s = true /\ m_worker s1 = Running
            /\ m_curlresult s1 = m_curlresult s
            /\ transfer_result rest code s1 = transfer_result cbs code s
            /\ transfer_errortext rest text s1 = transfer_errortext cbs text s)).
Proof.
  induction cbs as [ | cb cbs IH]; intros s Hring Hpad Hcbs Hns Hrun; simpl; rewrite Hns.
  - exists [], (transfer_func_leave code text s).
    split; [reflexivity | ]. split; [exact Hring | ].
    split; [apply transfer_func_leave_frame | ]. split; [constructor | ].
    left. repeat split.
  - inversion Hcbs as [ | ? ? Hcb Hrest]; subst.
    destruct (invoke_ring_ok cb s Hring Hpad Hcb) as (abort & s' & Einv & Hring').
    rewrite Einv.
    destruct (invoke_started cb abort s s' Hring Hpad Hcb Einv Hns) as (Hst & Hab).
    pose proof (invoke_frame _ _ _ _ Einv) as (Hf & Hw & Hres & Herr).
    destruct abort.
    + exists [], (transfer_func_leave CURLE_ABORTED_BY_CALLBACK aborted_text s').
      split; [reflexivity | ]. split; [exact Hring' | ].
      split; [eapply worker_frame_trans; [exact Hf | apply transfer_func_leave_frame] | ].
      split; [constructor | ].
      left. rewrite (Hab eq_refl). repeat split.
    + destruct (m_started s') eqn:Est'.
      * exists cbs, s'.
        split; [destruct cbs; simpl; rewrite Est'; reflexivity | ].
        split; [exact Hring' | ]. split; [exact Hf | ]. split; [exact Hrest | ].
        right. rewrite <- Hst. repeat split; congruence.
      * destruct (IH s' Hring' Hpad Hrest Est') as (rest & s1 & Hu & Hr1 & Hf1 & Hc1 & Hcase);
          [congruence | ].
        exists rest, s1. split; [exact Hu | ]. split; [exact Hr1 | ].
        split; [eapply worker_frame_trans; eassumption | ]. split; [exact Hc1 | ].
        rewrite <- Hst. cbn [orb].
        destruct Hcase as [(A & B & C & D & E) | (A & B & C & D & E)].
        -- left. repeat split; assumption.
        -- right. repeat split; try assumption. congruence.
Qed.

(** After some steps a running worker is still inside the transfer, the
    result code as it was, or has returned with the result of the transfer. *)
Lemma perform_steps_result (code : CURLcode) (text : string) (n : nat) :
  forall (cbs : list callback) (s s' : livestream),
  perform_steps n cbs code text s = Some s' -> m_worker s = Running ->
  (m_worker s' = Running /\ m_curlresult s' = m_curlresult s)
  \/ (m_worker s' = Returned
      /\ m_curlresult s' = transfer_result cbs code s
      /\ m_curlerr s' = transfer_errortext cbs text s).
Proof.
  induction n as [ | n IH]; intros cbs s s' H Hrun; simpl in H.
  - injection H as <-. left. split; [exact Hrun | reflexivity].
  - rewrite Hrun in H. destruct cbs as [ | cb rest].
    + injection H as <-. right. repeat split.
    + simpl. destruct (invoke cb s) as [[[] s1] | ] eqn:E; try discriminate.
      * injection H as <-. right. repeat split.
      * pose proof (invoke_frame _ _ _ _ E) as (_ & Hw & Hres & _).
        destruct (IH rest s1 s' H) as [(A & B) | (A & B & C)]; [congruence | | ].
        -- left. split; [exact A | congruence].
        -- right. repeat split; assumption.
Qed.

(** What the wait for [m_started] hands back is an end of the callbacks. *)
Lemma until_started_rest (code : CURLcode) (text : string) :
  forall (cbs rest : list callback) (s s1 : livestream),
  until_started cbs code text s = Some (rest, s1) ->
  (List.length rest <= List.length cbs)%nat.
Proof.
  induction cbs as [ | cb cbs IH]; intros rest s s1 H; simpl in H;
    (destruct (m_started s); [injection H as <- _; simpl; lia | ]).
  - injection H as <- _. simpl. lia.
  - destruct (invoke cb s) as [[[] s'] | ]; try discriminate.
    + injection H as <- _. simpl. lia.
    + apply IH in H. simpl. lia.
Qed.

(** C1 (amended): on an idle instance, with the session set up, [start]
    comes back once [m_started] is true, [late] steps of the worker after the
    flag was set, and throws the transport failure, carrying the text libcurl
    left, exactly when the result code it then finds is not [CURLE_OK]; that
    is so only when the worker has already returned with the failure of the
    transfer.  It is always so when the transfer fails without a write that
    stored data, never when the transfer succeeds, and never when a write
    stored data and [start] resumes at once ([late = 0]).  Once the worker has
    returned, as it has when the caller resumes later than the callbacks left
    take, the code found is the result of the transfer: a transfer that fails
    after a write that stored data and before [start] has resumed makes
    [start] throw as well.  When it does not throw it returns [readpos], equal
    to [startpos]. *)
Theorem start_reports_failure_seen_on_resume (u : string) (env : setup)
    (t : transfer) (late : nat) (s : livestream) :
  idle s -> ring_ok s -> 0 <= WRITE_PADDING -> Forall chunk_ok (callbacks t) ->
  easy_init_ok env = true -> setopt_result env = CURLE_OK ->
  exists rest s0 s1,
    until_started (callbacks t) (result t) (errortext t) (prepared u s) = Some (rest, s0)
    /\ perform_steps late rest (result t) (errortext t) s0 = Some s1
    /\ wait_until_started t late (prepared u s) = Some s1
    /\ (m_curlresult s1 <> CURLE_OK ->
          start (Some u) env t late s
          = Throws (transport_failed u (m_curlerr s1)) (set_curl None s1)
          /\ m_worker s1 = Returned
          /\ m_curlresult s1 = transfer_result (callbacks t) (result t) (prepared u s)
          /\ m_curlerr s1 = transfer_errortext (callbacks t) (errortext t) (prepared u s))
    /\ (m_curlresult s1 = CURLE_OK ->
          start (Some u) env t late s = Returns (m_readpos s1) s1
          /\ m_readpos s1 = m_startpos s1)
    /\ (transfer_result (callbacks t) (result t) (prepared u s) <> CURLE_OK ->
        data_produced (callbacks t) (prepared u s) = false ->
        m_curlresult s1 <> CURLE_OK)
    /\ (transfer_result (callbacks t) (result t) (prepared u s) = CURLE_OK ->
        m_curlresult s1 = CURLE_OK)
    /\ (late = 0%nat -> data_produced (callbacks t) (prepared u s) = true ->
        m_curlresult s1 = CURLE_OK)
    /\ (m_worker s1 = Running \/ m_worker s1 = Returned)
    /\ (m_worker s1 = Running ->
          m_curlresult s1 = CURLE_OK
          /\ data_produced (callbacks t) (prepared u s) = true)
    /\ (m_worker s1 = Returned ->
          m_curlresult s1 = transfer_result (callbacks t) (result t) (prepared u s)
          /\ m_curlerr s1 = transfer_errortext (callbacks t) (errortext t) (prepared u s))
    /\ (data_produced (callbacks t) (prepared u s) = false -> m_worker s1 = Returned)
    /\ ((List.length rest < late)%nat -> m_worker s1 = Returned)
    /\ ((List.length (callbacks t) < late)%nat -> m_worker s1 = Returned)
    /\ (m_worker s1 = Returned ->
        transfer_result (callbacks t) (result t) (prepared u s) <> CURLE_OK ->
        start (Some u) env t late s
        = Throws (transport_failed u
                    (transfer_errortext (callbacks t) (errortext t) (prepared u s)))
                 (set_curl None s1)).
Proof.
  intros (Hworker & Hns & Horigin) Hring Hpad Hcbs Hinit Hsetopt.
  assert (Hring0 : ring_ok (prepared u s)) by exact Hring.
  destruct (until_started_spec (result t) (errortext t) (callbacks t) (prepared u s)
              Hring0 Hpad Hcbs Hns eq_refl)
    as (rest & s0 & Hu & Hr0 & Hf0 & Hc0 & Hcase).
  destruct (perform_steps_ring_ok late (result t) (errortext t) rest s0 Hr0 Hpad Hc0)
    as (s1 & Hp & Hr1).
  pose proof (perform_steps_frame _ _ _ _ _ _ Hp) as Hf1.
  pose proof (worker_frame_trans _ _ _ Hf0 Hf1) as (_ & _ & _ & _ & Hpos).
  pose proof (until_started_rest _ _ _ _ _ _ Hu) as Hshort.
  assert (Hwait : wait_until_started t late (prepared u s) = Some s1).
  { unfold wait_until_started. rewrite Hu. exact Hp. }
  assert (Hstart : start (Some u) env t late s
                   = if negb (m_curlresult s1 =? CURLE_OK)
                     then Throws (transport_failed u (m_curlerr s1)) (set_curl None s1)
                     else Returns (m_readpos s1) s1).
  { unfold start. rewrite Hworker, Hinit, Hsetopt. cbn [joinable negb Z.eqb CURLE_OK].
    cbv zeta. fold (prepared u s). rewrite Hwait. reflexivity. }
  assert (Hfacts :
            (m_curlresult s1 <> CURLE_OK ->
               m_worker s1 = Returned
               /\ m_curlresult s1 = transfer_result (callbacks t) (result t) (prepared u s)
               /\ m_curlerr s1 = transfer_errortext (callbacks t) (errortext t) (prepared u s))
            /\ (transfer_result (callbacks t) (result t) (prepared u s) <> CURLE_OK ->
                data_produced (callbacks t) (prepared u s) = false ->
                m_curlresult s1 <> CURLE_OK)
            /\ (transfer_result (callbacks t) (result t) (prepared u s) = CURLE_OK ->
                m_curlresult s1 = CURLE_OK)
            /\ (late = 0%nat -> data_produced (callbacks t) (prepared u s) = true ->
                m_curlresult s1 = CURLE_OK)
            /\ (m_worker s1 = Running \/ m_worker s1 = Returned)
            /\ (m_worker s1 = Running ->
                  m_curlresult s1 = CURLE_OK
                  /\ data_produced (callbacks t) (prepared u s) = true)
            /\ (m_worker s1 = Returned ->
                  m_curlresult s1 = transfer_result (callbacks t) (result t) (prepared u s)
                  /\ m_curlerr s1
                     = transfer_errortext (callbacks t) (errortext t) (prepared u s))
            /\ (data_produced (callbacks t) (prepared u s) = false -> m_worker s1 = Returned)
            /\ ((List.length rest < late)%nat -> m_worker s1 = Returned)).
  { destruct Hcase as [(Hd & -> & Hw0 & Hres0 & Herr0) | (Hd & Hw0 & Hres0 & Htr & Hte)].
    - rewrite perform_steps_not_running in Hp by congruence.
      injection Hp as <-.
      split; [intros _; repeat split; assumption | ].
      split; [intros H _; congruence | ].
      split; [intros H; congruence | ].
      split; [intros _ H; congruence | ].
      split; [right; exact Hw0 | ].
      split; [intros H; congruence | ].
      split; [intros _; split; assumption | ].
      split; intros _; exact Hw0.
    - destruct (perform_steps_result _ _ _ _ _ _ Hp Hw0) as [(A & B) | (A & B & C)].
      + assert (Hok : m_curlresult s1 = CURLE_OK) by (rewrite B, Hres0; reflexivity).
        split; [intros H; contradiction | ].
        split; [intros _ H; congruence | ].
        split; [intros _; exact Hok | ].
        split; [intros _ _; exact Hok | ].
        split; [left; exact A | ].
        split; [intros _; split; [exact Hok | exact Hd] | ].
        split; [intros H; congruence | ].
        split; [intros H; congruence | ].
        intros Hlate. exact (perform_steps_returns _ _ _ _ _ _ Hlate Hp Hw0).
      + split; [intros _; repeat split; congruence | ].
        split; [intros _ H; congruence | ].
        split; [intros H; congruence | ].
        split; [intros -> _; simpl in Hp; injection Hp as <-; congruence | ].
        split; [right; exact A | ].
        split; [intros H; congruence | ].
        split; [intros _; split; congruence | ].
        split; intros _; exact A. }
  destruct Hfacts as (F1 & F2 & F3 & F4 & F5 & F6 & F7 & F8 & F9).
  exists rest, s0, s1. split; [exact Hu | ]. split; [exact Hp | ]. split; [exact Hwait | ].
  split.
  { intros Hbad. split; [ | exact (F1 Hbad)].
    rewrite Hstart. rewrite (proj2 (Z.eqb_neq _ _) Hbad). reflexivity. }
  split.
  { intros Hok. split; [ | apply Hpos; exact Horigin].
    rewrite Hstart, Hok. reflexivity. }
  split; [exact F2 | ]. split; [exact F3 | ]. split; [exact F4 | ].
  split; [exact F5 | ]. split; [exact F6 | ]. split; [exact F7 | ]. split; [exact F8 | ].
  split; [exact F9 | ].
  split; [intros Hlate; apply F9; lia | ].
  intros Hret Hfail. destruct (F7 Hret) as (Hres & Herr).
  rewrite Hstart, <- Herr.
  rewrite (proj2 (Z.eqb_neq (m_curlresult s1) CURLE_OK)) by (rewrite Hres; exact Hfail).
  reflexivity.
Qed.

(** ** The length over the life of an instance *)

Lemma until_started_frame (code : CURLcode) (text : string) :
  forall (cbs rest : list callback) (s s1 : livestream),
  until_started cbs code text s = Some (rest, s1) -> worker_frame s s1.
Proof.
  induction cbs as [ | cb cbs IH]; intros rest s s1 H; simpl in H;
    (destruct (m_started s); [injection H as <- <-; apply worker_frame_refl | ]).
  - injection H as <- <-. apply transfer_func_leave_frame.
  - destruct (invoke cb s) as [[[] s'] | ] eqn:E; try discriminate.
    + injection H as <- <-. apply invoke_frame in E. destruct E as (Hf & _).
      eapply worker_frame_trans; [exact Hf | apply transfer_func_leave_frame].
    + apply invoke_frame in E. destruct E as (Hf & _).
      eapply worker_frame_trans; [exact Hf | eapply IH; exact H].
Qed.

Lemma wait_until_started_length (t : transfer) (late : nat) (s s1 : livestream) :
  wait_until_started t late s = Some s1 -> m_length s <= m_length s1.
Proof.
  unfold wait_until_started.
  destruct (until_started _ _ _ _) as [[rest s0] | ] eqn:E; [ | discriminate].
  intros H. apply until_started_frame in E. apply perform_steps_frame in H.
  destruct (worker_frame_trans _ _ _ E H) as (_ & _ & Hl & _). exact Hl.
Qed.

Lemma join_length (t : transfer) (s s1 : livestream) :
  join t s = Some s1 -> m_length s <= m_length s1.
Proof.
  unfold join. destruct (perform_steps _ _ _ _ _) as [s' | ] eqn:E; [ | discriminate].
  intros H. injection H as <-. apply perform_steps_frame in E.
  destruct E as (_ & _ & Hl & _). exact Hl.
Qed.

Lemma reset_stream_state_length (owns_lock : bool) (s s' : livestream) :
  reset_stream_state owns_lock s = Returns tt s' -> m_length s' = m_length s.
Proof.
  unfold reset_stream_state.
  destruct (negb owns_lock); [discriminate | ].
  destruct (joinable (m_worker s)); [discriminate | ].
  intros H. injection H as <-. reflexivity.
Qed.

Lemma reset_stream_state_throws (owns_lock : bool) (e : exception) (s s' : livestream) :
  reset_stream_state owns_lock s = Throws e s' -> s' = s.
Proof.
  unfold reset_stream_state.
  destruct (negb owns_lock); [intros H; injection H as _ <-; reflexivity | ].
  destruct (joinable (m_worker s)); [intros H; injection H as _ <-; reflexivity | ].
  discriminate.
Qed.

Lemma start_length (url : option string) (env : setup) (t : transfer) (late : nat)
    (s s' : livestream) :
  instance_after (start url env t late s) = Some s' -> m_length s <= m_length s'.
Proof.
  unfold start. destruct url as [u | ]; [ | intros H; injection H as <-; lia].
  destruct (joinable (m_worker s)); [intros H; injection H as <-; lia | ].
  destruct (negb (easy_init_ok env)); [intros H; injection H as <-; simpl; lia | ].
  cbv zeta.
  destruct (negb (setopt_result env =? CURLE_OK)); [intros H; injection H as <-; simpl; lia | ].
  destruct (wait_until_started _ _ _) as [s1 | ] eqn:E; [ | discriminate].
  apply wait_until_started_length in E. simpl in E.
  destruct (negb (m_curlresult s1 =? CURLE_OK)); intros H; injection H as <-; simpl; lia.
Qed.

Lemma seek_length (position : Z) (env : restart) (s s' : livestream) :
  instance_after (seek position env s) = Some s' -> m_length s <= m_length s'.
Proof.
  unfold seek.
  destruct (position =? m_readpos s); [intros H; injection H as <-; lia | ].
  destruct (negb (joinable (m_worker s))); [intros H; injection H as <-; lia | ].
  cbv zeta.
  destruct (_ && _).
  - destruct (_ =? _); intros H; injection H as <-; simpl; lia.
  - destruct (join _ _) as [s1 | ] eqn:Ej; [ | discriminate].
    apply join_length in Ej. simpl in Ej.
    destruct (reset_stream_state true s1) as [[] s2 | e s2 | ] eqn:Er; try discriminate.
    + apply reset_stream_state_length in Er.
      destruct (curl_easy_setopt_range _ _ _) as [rc h].
      destruct (negb (rc =? CURLE_OK));
        [intros H; injection H as <-; simpl; lia | ].
      destruct (wait_until_started _ _ _) as [s3 | ] eqn:Ew; [ | discriminate].
      apply wait_until_started_length in Ew. simpl in Ew.
      destruct (negb (m_curlresult s3 =? CURLE_OK)); intros H; injection H as <-; lia.
    + apply reset_stream_state_throws in Er. subst s2.
      intros H. injection H as <-. exact Ej.
Qed.

Lemma read_length (buffer : option (list uint8_t)) (count : Z) (t : transfer)
    (arrivals : nat) (s s' : livestream) :
  instance_after (read buffer count t arrivals s) = Some s' -> m_length s <= m_length s'.
Proof.
  unfold read. destruct buffer as [dest | ]; [ | intros H; injection H as <-; lia].
  destruct (count >? m_buffersize s); [intros H; injection H as <-; lia | ].
  destruct (count =? 0); [intros H; injection H as <-; lia | ].
  destruct (wait_for_data t arrivals s) as [s1 | ] eqn:Ew; [ | discriminate].
  assert (Hl : m_length s <= m_length s1).
  { unfold wait_for_data in Ew.
    destruct (negb (m_bufferhead s =? m_buffertail s)); [injection Ew as <-; lia | ].
    apply perform_steps_frame in Ew. apply Ew. }
  destruct (m_bufferhead s1 =? m_buffertail s1); [intros H; injection H as <-; exact Hl | ].
  destruct (read_loop _ _ _ _ _ _ _ _) as [[[d tl] br] | ]; [ | discriminate].
  intros H. injection H as <-. exact Hl.
Qed.

Lemma exec_length (c : call) (s s' : livestream) :
  exec c s = Some s' -> is_stop c = false -> m_length s <= m_length s'.
Proof.
  destruct c; simpl; intros H Hc; try discriminate Hc.
  - eapply start_length; exact H.
  - eapply seek_length; exact H.
  - eapply read_length; exact H.
  - injection H as <-. lia.
  - injection H as <-. lia.
  - apply perform_steps_frame in H. apply H.
Qed.

(** C4: [m_length] never falls except in [stop].  Every call other than
    [stop], and every step of the worker, leaves it at least as large, and so
    does any sequence of them; a write leaves it as it was or raises it to the
    new [writepos], which then exceeds the old length; [reset_stream_state]
    and the spawning of a worker, the parts of a seek and of a (re)start that
    touch the state, leave it as it is; a [stop] that finds a worker sets it
    to 0. *)
Theorem length_falls_only_in_stop :
  (forall c s s', exec c s = Some s' -> is_stop c = false -> m_length s <= m_length s')
  /\ (forall cs s s',
        run cs s = Some s' -> forallb (fun c => negb (is_stop c)) cs = true ->
        m_length s <= m_length s')
  /\ (forall data size count n s s',
        curl_write data size count s = Returns n s' ->
        m_length s' = m_length s
        \/ (m_length s < m_writepos s' /\ m_length s' = m_writepos s'))
  /\ (forall owns_lock s s',
        reset_stream_state owns_lock s = Returns tt s' -> m_length s' = m_length s)
  /\ (forall s, m_length (spawn s) = m_length s)
  /\ (forall t s p s',
        stop t s = Returns p s' -> joinable (m_worker s) = true -> m_length s' = 0).
Proof.
  split; [exact exec_length | ].
  split.
  { induction cs as [ | c cs IH]; intros s s' H Hcs; simpl in H.
    - injection H as <-. lia.
    - simpl in Hcs. apply andb_true_iff in Hcs. destruct Hcs as [Hc Hcs].
      apply negb_true_iff in Hc.
      destruct (exec c s) as [s1 | ] eqn:E; [ | discriminate].
      apply Z.le_trans with (m_length s1).
      + eapply exec_length; eassumption.
      + eapply IH; eassumption. }
  split.
  { intros data size count n s s'. unfold curl_write.
    destruct data as [bytes | ]; [ | intros H; injection H as <- <-; left; reflexivity].
    destruct (to_size_t (size * count) =? 0);
      [intros H; injection H as <- <-; left; reflexivity | ].
    destruct (_ <? _); [intros H; injection H as <- <-; left; reflexivity | ].
    destruct (write_loop _ _ _ _ _ _ _ _) as [[[b h] w] | ]; [ | discriminate].
    cbv zeta. intros H. injection H as <- <-.
    destruct (_ >? _) eqn:E; [ | left; reflexivity].
    simpl in E. apply Z.gtb_lt in E. right. simpl. split; [exact E | reflexivity]. }
  split; [exact reset_stream_state_length | ].
  split; [reflexivity | ].
  intros t s p s'. unfold stop. intros H Hj. rewrite Hj in H. cbn [negb] in H. cbv zeta in H.
  destruct (join t (set_stop true s)) as [s1 | ]; [ | discriminate].
  destruct (reset_stream_state true s1) as [[] s2 | e s2 | ]; try discriminate.
  injection H as _ <-. reflexivity.
Qed.

(** ** The padding keeps head and tail apart *)

Lemma buffered_stored (bytes : list uint8_t) (n : Z) (s : livestream) :
  ring_ok s -> m_buffertail s < m_buffersize s -> 0 < WRITE_PADDING ->
  0 < n -> n + WRITE_PADDING <= available s ->
  buffered (stored bytes n s) = buffered s + n
  /\ buffered s + n < m_buffersize s.
Proof.
  intros (HC & Hh & Ht & Hlen) Htail Hpad Hn Hroom.
  unfold buffered, available, stored in *. simpl.
  destruct (m_bufferhead s <? m_buffertail s) eqn:E1;
    [apply Z.ltb_lt in E1 | apply Z.ltb_ge in E1].
  - rewrite mod_below by lia. settle. lia.
  - destruct (Z_lt_le_dec (m_bufferhead s + n) (m_buffersize s)) as [Hflat | Hwrap].
    + rewrite mod_below by lia. settle. lia.
    + rewrite mod_wrapped by lia. settle.
      destruct (Z.eq_dec (m_buffertail s) (m_bufferhead s + n - m_buffersize s)); [lia | ].
      settle. lia.
Qed.

Lemma buffered_consumed (m : Z) (s : livestream) :
  ring_ok s -> m_buffertail s < m_buffersize s -> 0 <= m <= buffered s ->
  buffered (consumed m s) = buffered s - m
  /\ m_buffertail (consumed m s) < m_buffersize s.
Proof.
  intros (HC & Hh & Ht & Hlen) Htail Hm.
  unfold buffered, consumed in *. simpl.
  split; [ | apply Z.mod_pos_bound; lia].
  destruct (m_buffertail s <=? m_bufferhead s) eqn:E1;
    [apply Z.leb_le in E1 | apply Z.leb_gt in E1].
  - rewrite mod_below by lia. settle. lia.
  - destruct (Z_lt_le_dec (m_buffertail s + m) (m_buffersize s)) as [Hflat | Hwrap].
    + rewrite mod_below by lia. settle. lia.
    + rewrite mod_wrapped by lia. settle. lia.
Qed.

(** Along a history of writes and reads the indices stay inside the array,
    the bytes between tail and head are the unread ones, and so head and tail
    coincide exactly when nothing is unread: no write fills the ring. *)
Lemma ring_history_invariant (s : livestream) (u : Z) :
  0 < WRITE_PADDING -> ring_history s u ->
  ring_ok s /\ m_buffertail s < m_buffersize s /\ u = buffered s
  /\ (m_bufferhead s = m_buffertail s <-> u = 0).
Proof.
  intros Hpad H.
  assert (Hinv : ring_ok s /\ m_buffertail s < m_buffersize s /\ u = buffered s).
  { induction H as [s Hring Heq
                   | s s' u data size count n H IH Hchunk Hw
                   | s s' u dest dest' count m t H IH Hpos Hr].
    - split; [exact Hring | ]. destruct Hring as (HC & Hh & Ht & Hlen).
      split; [lia | ]. unfold buffered. rewrite Heq. settle. lia.
    - destruct IH as (Hring & Htail & Hu).
      destruct data as [bytes | ].
      + simpl in Hchunk. destruct Hchunk as [Hn Hfit].
        destruct (Z.eq_dec (size * count) 0) as [E0 | E0].
        * unfold curl_write in Hw. rewrite E0 in Hw. simpl in Hw. injection Hw as <- <-.
          simpl. rewrite E0. simpl. rewrite Z.add_0_r.
          split; [exact Hring | ]. split; [exact Htail | exact Hu].
        * destruct (Z_lt_le_dec (available s) (size * count + WRITE_PADDING)) as [Hf | Hr].
          -- rewrite curl_write_pauses in Hw by (assumption || lia).
             injection Hw as <- <-. unfold accepts.
             rewrite (proj2 (Z.ltb_lt (available s) (size * count + WRITE_PADDING)) Hf).
             rewrite andb_false_r, Z.add_0_r.
             split; [exact Hring | ]. split; [exact Htail | exact Hu].
          -- rewrite curl_write_stores in Hw by (assumption || lia).
             injection Hw as <- <-. unfold accepts.
             rewrite (proj2 (Z.eqb_neq (size * count) 0)) by lia.
             rewrite (proj2 (Z.ltb_ge (available s) (size * count + WRITE_PADDING))) by lia.
             cbn [negb andb].
             destruct (buffered_stored bytes (size * count) s Hring Htail Hpad) as (Hb & _);
               [lia | exact Hr | ].
             split; [apply ring_ok_stored; (assumption || lia) | ].
             split; [exact Htail | ]. rewrite Hb. lia.
      + simpl in Hw. injection Hw as <- <-. simpl. rewrite Z.add_0_r.
        split; [exact Hring | ]. split; [exact Htail | exact Hu].
    - destruct IH as (Hring & Htail & Hu).
      pose proof Hring as (HC & Hh & Ht & Hlen).
      unfold read in Hr.
      destruct (count >? m_buffersize s) eqn:Ebig; [discriminate | ].
      destruct (count =? 0) eqn:E0.
      + injection Hr as <- <- <-. rewrite Z.sub_0_r.
        split; [exact Hring | split; [exact Htail | exact Hu]].
      + apply Z.eqb_neq in E0. rewrite Z.gtb_ltb in Ebig. apply Z.ltb_ge in Ebig.
        unfold wait_for_data in Hr.
        destruct (m_bufferhead s =? m_buffertail s) eqn:Eeq.
        * simpl in Hr. rewrite Eeq in Hr. injection Hr as <- <- <-.
          rewrite Z.sub_0_r.
          split; [exact Hring | split; [exact Htail | exact Hu]].
        * cbn [negb] in Hr. rewrite Eeq in Hr. apply Z.eqb_neq in Eeq.
          -- replace (S (2 * Z.to_nat count))%nat
               with (S (S (2 * Z.to_nat count - 1)))%nat in Hr by lia.
             rewrite read_loop_takes in Hr by lia.
             fold (buffered s) in Hr. injection Hr as <- <- <-.
             assert (Hm : 0 <= Z.min count (buffered s) <= buffered s).
             { split; [ | apply Z.le_min_r]. apply Z.min_glb; [lia | ].
               unfold buffered. destruct (m_buffertail s <=? m_bufferhead s) eqn:E;
                 [apply Z.leb_le in E | apply Z.leb_gt in E]; lia. }
             destruct (buffered_consumed _ s Hring Htail Hm) as (Hb & Ht').
             fold (consumed (Z.min count (buffered s)) s).
             split; [ | split; [exact Ht' | rewrite Hb; lia]].
             unfold ring_ok, consumed. simpl.
             repeat match goal with |- _ /\ _ => split end; try lia.
             ++ apply Z.mod_pos_bound. lia.
             ++ pose proof (Z.mod_pos_bound (m_buffertail s + Z.min count (buffered s))
                              (m_buffersize s) ltac:(lia)). lia. }
  destruct Hinv as (Hring & Htail & Hu).
  split; [exact Hring | ]. split; [exact Htail | ]. split; [exact Hu | ].
  destruct Hring as (HC & Hh & Ht & Hlen).
  subst u. unfold buffered.
  destruct (m_buffertail s <=? m_bufferhead s) eqn:E;
    [apply Z.leb_le in E | apply Z.leb_gt in E]; lia.
Qed.

(** ** Where an instance is idle *)

Lemma constructed_is_idle (operator_new : Z -> option (list uint8_t))
    (buffersize : Z) (s : livestream) :
  livestream_ctor operator_new buffersize = inr s ->
  idle s /\ m_bufferhead s = 0 /\ m_buffertail s = 0 /\ m_length s = 0.
Proof.
  unfold livestream_ctor.
  destruct (align_up _ _) as [e | size]; [discriminate | ].
  destruct (operator_new size); [ | discriminate].
  destruct (operator_new CURL_ERROR_SIZE); [ | discriminate].
  intros H. injection H as <-. repeat split.
Qed.

Lemma stopped_is_idle (t : transfer) (s s' : livestream) (p : Z) :
  joinable (m_worker s) = true -> stop t s = Returns p s' ->
  idle s' /\ m_bufferhead s' = 0 /\ m_buffertail s' = 0 /\ m_length s' = 0.
Proof.
  intros Hj. unfold stop. rewrite Hj. cbn [negb]. cbv zeta.
  destruct (join t (set_stop true s)) as [s1 | ] eqn:Ej; [ | discriminate].
  apply join_not_joinable in Ej.
  unfold reset_stream_state. rewrite Ej. simpl.
  intros H. injection H as _ <-. simpl. repeat split. exact Ej.
Qed.

(** With an allocator that hands out blocks of the size asked for, a
    constructed instance of non-zero capacity has a well-formed ring. *)
Lemma constructed_ring_ok (operator_new : Z -> option (list uint8_t))
    (buffersize : Z) (s : livestream) :
  (forall n block, operator_new n = Some block -> Z.of_nat (List.length block) = n) ->
  livestream_ctor operator_new buffersize = inr s ->
  m_buffersize s <> 0 -> ring_ok s.
Proof.
  intros Hnew. unfold livestream_ctor, align_up.
  destruct (65536 <? 1); [discriminate | ].
  set (v := to_size_t (buffersize + WRITE_PADDING)).
  set (size := if v =? 0 then 0 else to_size_t (v + (65536 - v mod 65536) mod 65536)).
  assert (Hsize : 0 <= size <= SIZE_MAX).
  { unfold size. destruct (v =? 0); [unfold SIZE_MAX; lia | apply to_uint64_range]. }
  destruct (operator_new size) as [block | ] eqn:Eb; [ | discriminate].
  destruct (operator_new CURL_ERROR_SIZE); [ | discriminate].
  intros H. injection H as <-. simpl. intros Hnz.
  unfold ring_ok. simpl. rewrite (Hnew _ _ Eb). lia.
Qed.

(** A thread that runs [transfer_func] to its end is what [join] waits for. *)
Lemma join_spawned (t : transfer) (s : livestream) :
  join t (spawn s)
  = match transfer_func t (set_worker Running s) with
    | Some s' => Some (set_worker NotAThread s')
    | None => None
    end.
Proof. reflexivity. Qed.

(** A padded request that does not fit a [size_t] wraps, whatever the
    padding: the request [2^64 - WRITE_PADDING] is rounded to capacity 0. *)
Lemma padded_request_wraps (operator_new : Z -> option (list uint8_t)) :
  0 < WRITE_PADDING <= SIZE_MAX ->
  livestream_ctor operator_new (2 ^ 64 - WRITE_PADDING) = inl bad_alloc
  \/ constructed_capacity operator_new (2 ^ 64 - WRITE_PADDING) = Some 0.
Proof.
  intros H. unfold constructed_capacity, livestream_ctor.
  replace (2 ^ 64 - WRITE_PADDING + WRITE_PADDING) with (2 ^ 64) by lia.
  change (align_up (to_size_t (2 ^ 64)) 65536) with (@inr exception Z 0).
  cbv beta iota.
  destruct (operator_new 0); [ | left; reflexivity].
  destruct (operator_new CURL_ERROR_SIZE); [right; reflexivity | left; reflexivity].
Qed.

End Livestream.

(** * Instances

    The properties above at the sample inputs, with a padding of one byte. *)

Ltac closed :=
  vm_compute;
  repeat match goal with |- _ /\ _ => split end;
  try reflexivity; try (intro; discriminate).

Lemma fresh_constructed :
  livestream_ctor sample_padding (zeroed_block 1048576) 65535 = inr fresh.
Proof.
  unfold livestream_ctor, sample_padding, fresh.
  change (align_up (to_size_t (65535 + 1)) 65536) with (@inr exception Z 65536).
  cbv beta iota. unfold zeroed_block.
  change ((0 <=? 65536) && (65536 <=? 1048576)) with true.
  change ((0 <=? CURL_ERROR_SIZE) && (CURL_ERROR_SIZE <=? 1048576)) with true.
  reflexivity.
Qed.

Lemma fresh_ring_ok : ring_ok fresh.
Proof. closed. Qed.

Lemma midstream_ring_ok : ring_ok midstream.
Proof. closed. Qed.

(** ** Capacity *)

Lemma capacity_of_sample_request :
  exists C,
    align_up (65535 + sample_padding) 65536 = inr C
    /\ smallest_multiple_from 65536 (65535 + sample_padding) C
    /\ 0 < C /\ C mod 65536 = 0 /\ sample_padding < C
    /\ (livestream_ctor sample_padding (zeroed_block 1048576) 65535 = inl bad_alloc
        \/ constructed_capacity sample_padding (zeroed_block 1048576) 65535 = Some C).
Proof.
  refine (proj2 (proj2 (capacity_is_aligned_padded_request
                          sample_padding (zeroed_block 1048576) 65535 _ _ _ _))).
  - closed.
  - closed.
  - closed.
  - left. closed.
Defined.

(** A request of [2^64 - 1] bytes with one byte of padding wraps to 0: the
    constructor allocates nothing and yields an instance of capacity 0. *)
Lemma capacity_wraps_to_zero :
  constructed_capacity sample_padding (zeroed_block 1048576) (2 ^ 64 - 1) = Some 0.
Proof. vm_compute. reflexivity. Qed.

(** ** Header lines *)

Lemma range_header_sets_positions :
  snd (curl_responseheaders "Content-Range: bytes 1234-5678/9999" 1 35 midstream)
  = positioned 1234 midstream.
Proof.
  refine (proj1 (proj2 (header_adapter_sets_range_start
                          "Content-Range: bytes 1234-5678/9999" 1 35 midstream _ _))
               1234 _).
  - closed.
  - reflexivity.
  - exists " ", " ", "", "1234", "-5678/9999".
    split; [reflexivity | ]. split; [reflexivity | ]. split; [reflexivity | ].
    split; [left; reflexivity | ]. split; [discriminate | ].
    split; [reflexivity | ]. split; reflexivity.
Defined.

(** A line without the dash sets the positions all the same, and it is not a
    line [Content-Range: bytes <start>-]. *)
Lemma range_header_without_dash :
  m_startpos (snd (curl_responseheaders "Content-Range: bytes 7" 1 22 midstream)) = 7
  /\ m_readpos (snd (curl_responseheaders "Content-Range: bytes 7" 1 22 midstream)) = 7
  /\ m_writepos (snd (curl_responseheaders "Content-Range: bytes 7" 1 22 midstream)) = 7
  /\ m_readpos midstream = 60000
  /\ ~ (exists start, claimed_range_line "Content-Range: bytes 7" start).
Proof.
  split; [reflexivity | ]. split; [reflexivity | ]. split; [reflexivity | ].
  split; [reflexivity | ].
  intros (start & ds & rest & Hline & Hne & _).
  destruct ds as [ | c ds]; [congruence | ].
  simpl in Hline. injection Hline as _ Hrest.
  destruct ds; discriminate Hrest.
Qed.

(** ** The write sink and the reader *)

Lemma four_bytes_stored :
  exists s',
    curl_write sample_padding (Some four_bytes) 1 4 fresh = Returns (1 * 4) s'
    /\ s' = stored four_bytes (1 * 4) fresh
    /\ m_bufferhead s' = (m_bufferhead fresh + 1 * 4) mod m_buffersize fresh.
Proof.
  destruct (curl_write_all_or_nothing sample_padding four_bytes 1 4 fresh) as [_ Hroom].
  - exact fresh_ring_ok.
  - closed.
  - closed.
  - closed.
  - destruct Hroom as (s' & E & Es & Eh & _).
    + closed.
    + exists s'. split; [exact E | ]. split; [exact Es | exact Eh].
Defined.

Lemma rewound_ring_ok : ring_ok rewound.
Proof. closed. Qed.

(** A reader sent back to position 200 takes eight bytes at once.  A
    reader that finds the ring empty gets the four bytes the worker stores
    during the wait, and nothing when the worker takes no step in time. *)
Lemma bytes_read_at_once_and_after_wait :
  (exists dest',
     read sample_padding (Some (repeat Byte.x00 8)) 8 finished 0 rewound
     = Returns (8, dest') (consumed 8 rewound)
     /\ forall i, 0 <= i < 8 ->
          byte_at dest' i = byte_at (m_buffer rewound) ((200 + i) mod 65536))
  /\ (exists dest' s',
        read sample_padding (Some (repeat Byte.x00 8)) 8 one_more_chunk 1 midstream
        = Returns (4, dest') s'
        /\ (forall i, 0 <= i < 4 ->
              byte_at dest' i = byte_at (repeat Byte.x02 (Z.to_nat 4)) i)
        /\ (forall j, 4 <= j -> byte_at dest' j = byte_at (repeat Byte.x00 8) j)
        /\ m_readpos s' = 60004
        /\ m_writepos s' = 60004
        /\ m_buffertail s' = 60004
        /\ m_bufferhead s' = 60004)
  /\ read sample_padding (Some (repeat Byte.x00 8)) 8 one_more_chunk 0 midstream
     = Returns (0, repeat Byte.x00 8) midstream.
Proof.
  split; [ | split].
  - destruct (read_copies_buffered_bytes sample_padding (repeat Byte.x00 8) 8 finished 0
                rewound) as (_ & _ & _ & H & _).
    + exact rewound_ring_ok.
    + closed.
    + constructor.
    + destruct H as (s1 & Hwait & _ & _ & _ & Hdata).
      * closed.
      * injection Hwait as <-.
        destruct Hdata as (dest' & E & Hbytes & _).
        -- closed.
        -- exists dest'. split; [exact E | exact Hbytes].
  - destruct (read_copies_buffered_bytes sample_padding (repeat Byte.x00 8) 8
                one_more_chunk 1 midstream) as (_ & _ & _ & _ & _ & H).
    + exact midstream_ring_ok.
    + closed.
    + constructor; [closed | constructor].
    + destruct (H (repeat Byte.x02 (Z.to_nat 4)) 1 4 [])
        as (dest' & s' & E & Hbytes & Hrest & Hrd & Hwr & Htl & Hhd).
      * closed.
      * reflexivity.
      * reflexivity.
      * reflexivity.
      * reflexivity.
      * closed.
      * closed.
      * closed.
      * exists dest', s'. split; [exact E | ]. split; [exact Hbytes | ].
        split; [exact Hrest | ]. split; [exact Hrd | ]. split; [exact Hwr | ].
        split; [exact Htl | exact Hhd].
  - destruct (read_copies_buffered_bytes sample_padding (repeat Byte.x00 8) 8
                one_more_chunk 0 midstream) as (_ & _ & _ & _ & H & _).
    + exact midstream_ring_ok.
    + closed.
    + constructor; [closed | constructor].
    + apply H.
      * closed.
      * reflexivity.
      * left. reflexivity.
Defined.

(** ** stop and seek *)

Lemma midstream_stopped :
  exists s1,
    join sample_padding finished (set_stop true midstream) = Some s1
    /\ stop sample_padding finished midstream
       = Returns (m_readpos s1) (set_curl None (set_length 0 (cleared s1))).
Proof.
  refine (proj1 (proj2 (stop_never_fails sample_padding finished midstream _ _ _)) _).
  - exact midstream_ring_ok.
  - closed.
  - constructor.
  - reflexivity.
Defined.

Lemma seek_without_worker :
  seek sample_padding 5 no_restart fresh
  = Throws (string_exception ["seek"; ": cannot seek an inactive data transfer"]) fresh
  /\ seek sample_padding 0 no_restart fresh = Returns 0 fresh.
Proof.
  split.
  - exact (seek_compares_position_before_worker sample_padding 5 no_restart fresh eq_refl).
  - exact (seek_compares_position_before_worker sample_padding 0 no_restart fresh eq_refl).
Defined.

Lemma seek_back_to_200 :
  exists s',
    seek sample_padding 200 no_restart midstream = Returns 200 s'
    /\ s' = rewound
    /\ m_buffertail s' = 200
    /\ m_readpos s' = 200
    /\ m_stop s' = m_stop midstream
    /\ m_worker s' = m_worker midstream
    /\ m_curl s' = m_curl midstream.
Proof.
  refine (seek_inside_buffer_moves_tail sample_padding 200 no_restart midstream _ _ _ _ _ _).
  - closed.
  - closed.
  - closed.
  - reflexivity.
  - closed.
  - closed.
Defined.

(** ** start *)

Lemma fresh_idle : idle fresh.
Proof. repeat split. Qed.

Lemma failing_after_data_chunks :
  Forall (chunk_ok sample_padding) (callbacks failing_after_data).
Proof.
  constructor; [exact I | ]. constructor; [closed | constructor].
Qed.

(** When [start] resumes at the first stored chunk it returns the origin of
    the stream, although the transfer fails later; when it resumes one step
    of the worker later, the worker has returned with the failure and [start]
    throws. *)
Lemma start_resumed_at_first_chunk :
  (exists s1,
     start sample_padding (Some sample_url) setup_ok failing_after_data 0 fresh
     = Returns (m_readpos s1) s1
     /\ m_readpos s1 = m_startpos s1)
  /\ (exists s1,
        start sample_padding (Some sample_url) setup_ok failing_after_data 1 fresh
        = Throws (transport_failed sample_url "Failure when receiving data from the peer")
                 (set_curl None s1)
        /\ m_worker s1 = Returned).
Proof.
  split.
  - destruct (start_reports_failure_seen_on_resume sample_padding sample_url setup_ok
                failing_after_data 0 fresh)
      as (rest & s0 & s1 & _ & _ & _ & _ & Hok & _ & _ & Hprompt & _).
    + exact fresh_idle.
    + exact fresh_ring_ok.
    + closed.
    + exact failing_after_data_chunks.
    + reflexivity.
    + reflexivity.
    + exists s1. apply Hok. apply Hprompt; [reflexivity | closed].
  - destruct (start_reports_failure_seen_on_resume sample_padding sample_url setup_ok
                failing_after_data 1 fresh)
      as (rest & s0 & s1 & Hu & _ & _ & _ & _ & _ & _ & _ & _ & _ & _ & _ & Hlate & _ & Hthrow).
    + exact fresh_idle.
    + exact fresh_ring_ok.
    + closed.
    + exact failing_after_data_chunks.
    + reflexivity.
    + reflexivity.
    + assert (Hrest : option_map fst
                        (until_started sample_padding (callbacks failing_after_data)
                           (result failing_after_data) (errortext failing_after_data)
                           (prepared sample_url fresh)) = Some rest)
        by (rewrite Hu; reflexivity).
      vm_compute in Hrest. injection Hrest as <-.
      assert (Htext : transfer_errortext sample_padding (callbacks failing_after_data)
                        (errortext failing_after_data) (prepared sample_url fresh)
                      = "Failure when receiving data from the peer")
        by (vm_compute; reflexivity).
      assert (Hret : m_worker s1 = Returned) by (apply Hlate; simpl; lia).
      exists s1. split; [ | exact Hret].
      rewrite <- Htext. apply Hthrow; [exact Hret | closed].
Defined.

(** When the worker has failed by the time [start] resumes, one step after
    the first stored chunk, [start] throws although data was produced. *)
Lemma start_throws_after_stored_data :
  thrown (start sample_padding (Some sample_url) setup_ok failing_after_data 1 fresh)
  = Some (transport_failed sample_url "Failure when receiving data from the peer")
  /\ data_produced sample_padding (callbacks failing_after_data)
       (prepared sample_url fresh) = true
  /\ transfer_result sample_padding (callbacks failing_after_data)
       (result failing_after_data) (prepared sample_url fresh) = 56
  /\ idle fresh.
Proof.
  split; [vm_compute; reflexivity | ].
  split; [vm_compute; reflexivity | ].
  split; [vm_compute; reflexivity | exact fresh_idle].
Qed.

(** ** The length *)

Lemma length_after_one_more_chunk :
  exists s',
    exec sample_padding (worker_runs one_more_chunk 1) midstream = Some s'
    /\ m_length midstream <= m_length s'.
Proof.
  destruct (perform_steps_ring_ok sample_padding 1 CURLE_OK "" (callbacks one_more_chunk)
              midstream midstream_ring_ok) as (s' & E & _).
  - closed.
  - constructor; [closed | constructor].
  - exists s'. split; [exact E | ].
    exact (proj1 (length_falls_only_in_stop sample_padding)
                 (worker_runs one_more_chunk 1) midstream s' E eq_refl).
Defined.

(** ** An in-buffer seek against the padding *)

(** C7, at the failing input.  After [seek 4464] on the wrapped ring the
    reader stands 65536 bytes behind the writer and yet head and tail are
    equal: the next [read] finds the ring empty and returns 0.  After
    [seek 65536] on the ring written exactly once round nothing is unread and
    yet the tail, at 65536, is outside the array and differs from the head. *)
Example seek_defeats_the_padding :
  cursors (wrapped_ring sample_padding) = Some (4464, 60000, 60000, 70000)
  /\ returned (and_then (wrapped_ring sample_padding)
                        (seek sample_padding 4464 no_restart)) = Some 4464
  /\ cursors (and_then (wrapped_ring sample_padding)
                       (seek sample_padding 4464 no_restart))
     = Some (4464, 4464, 4464, 70000)
  /\ returned (and_then (and_then (wrapped_ring sample_padding)
                                  (seek sample_padding 4464 no_restart))
                        (read sample_padding (Some (repeat Byte.x00 8)) 8 finished 0))
     = Some (0, repeat Byte.x00 8)
  /\ cursors (ring_written_once sample_padding) = Some (0, 57344, 57344, 65536)
  /\ cursors (and_then (ring_written_once sample_padding)
                       (seek sample_padding 65536 no_restart))
     = Some (0, 65536, 65536, 65536).
Proof.
  repeat split; vm_compute; reflexivity.
Qed.
